(** * stock-options: the option-chain pricing engine and its ladders

    A shallow embedding of
      - [server/optionCalc.js]       (module [OptionCalc]),
      - [server/alphaVantageService.js], [retryWithBackoff] (module [AlphaVantage]),
      - [server/server.js], the [/api/options/:ticker] handler (module [Server]),
      - the script that fills the database from a CSV file (module [InitDb]).

    JavaScript numbers are modelled as real numbers: arithmetic is exact,
    [Math.exp], [Math.log] and [Math.sqrt] are the real functions, and
    integer quantities (day counts, milliseconds, loop counters) are
    integers.  A thrown [Error] is an explicit [Throw]; [console.warn]
    output is an explicit list of messages where a property mentions it. *)

From Stdlib Require Import Reals Lra Lia ZArith List String Psatz Bool.
From Stdlib Require Import Sorted Permutation Ascii.
From Equations Require Import Equations.
Import ListNotations.

(** ** JavaScript prelude *)

Module JS.

(** The completion of a call: a returned value or a thrown error. *)
Inductive completion (E A : Type) : Type :=
| Return (a : A)
| Throw (e : E).
Arguments Return {E A} a.
Arguments Throw {E A} e.

Definition returned {E A} (c : completion E A) : bool :=
  match c with Return _ => true | Throw _ => false end.

Section Numbers.
Open Scope R_scope.

(** Comparisons of numbers, as booleans. *)
Definition Rleb (a b : R) : bool := if Rle_dec a b then true else false.
Definition Rltb (a b : R) : bool := if Rlt_dec a b then true else false.
Definition Rgtb (a b : R) : bool := Rltb b a.
Definition Reqb (a b : R) : bool := if Req_dec_T a b then true else false.

(** [Math.round]: the nearest integer, halves rounded up. *)
Definition Math_round (x : R) : R := IZR (Int_part (x + 1 / 2)).

(** [isFinite]: the numbers of this model are the real numbers, which are
    all finite; [Infinity] and [NaN] are not values of [R], so a property
    that rests on this test speaks of finite numbers only. *)
Definition isFinite (x : R) : bool := true.

End Numbers.

(** [Array.prototype.sort(cmp)] as a stable insertion sort; [leb a b]
    stands for [cmp(a, b) <= 0]. *)
Section Sort.
Context {A : Type} (leb : A -> A -> bool).

Fixpoint insert (x : A) (l : list A) : list A :=
  match l with
  | [] => [x]
  | y :: l' => if leb x y then x :: l else y :: insert x l'
  end.

Fixpoint sort (l : list A) : list A :=
  match l with
  | [] => []
  | x :: l' => insert x (sort l')
  end.

End Sort.

(** [for (let i = lo; i <= hi; i++)]: the values taken by [i]. *)
Definition for_range (lo hi : Z) : list Z :=
  map (fun k => (lo + Z.of_nat k)%Z) (seq 0 (Z.to_nat (hi - lo + 1))).

(** An object used as a map, [obj[key] = v]: the entry is overwritten
    when the key is present and added otherwise. *)
Fixpoint obj_set {K V : Type} (eqb : K -> K -> bool) (key : K) (v : V)
    (o : list (K * V)) : list (K * V) :=
  match o with
  | [] => [(key, v)]
  | (k, w) :: o' =>
      if eqb k key then (k, v) :: o' else (k, w) :: obj_set eqb key v o'
  end.

End JS.

Import JS.

(** ** server/optionCalc.js *)

Module OptionCalc.
Open Scope R_scope.

Definition DAYS_PER_YEAR : R := 365.

Definition normalCDF (x : R) : R :=
  let t := 1 / (1 + 0.2316419 * Rabs x) in
  let d := 0.3989423 * exp (- x * x / 2) in
  let prob := d * t * (0.3193815 + t * (-0.3565638 + t * (1.781478 +
                t * (-1.821256 + t * 1.330274)))) in
  if Rltb 0 x then 1 - prob else prob.

(** The errors thrown by the pricer, one per [throw new Error(...)]. *)
Inductive PricingError : Type :=
| StockPriceNotPositive      (* 'Stock price must be positive' *)
| StrikePriceNotPositive     (* 'Strike price must be positive' *)
| TimeNotPositive            (* 'Time to expiration must be positive' *)
| VolatilityNotPositive      (* 'Volatility must be positive' *)
| InvalidOptionType          (* 'Invalid option type. Use call or put.' *)
| CurrentPriceNotPositive.   (* 'Current price must be positive' *)

Definition blackScholes (type : string) (S K T r v : R)
  : completion PricingError R :=
  if Rleb S 0 then Throw StockPriceNotPositive
  else if Rleb K 0 then Throw StrikePriceNotPositive
  else if Rleb T 0 then Throw TimeNotPositive
  else if Rleb v 0 then Throw VolatilityNotPositive
  else if Rltb T 0.00001 then
    if String.eqb type "call" then Return (Rmax 0 (S - K))
    else Return (Rmax 0 (K - S))
  else
    let d1 := (ln (S / K) + (r + v * v / 2) * T) / (v * sqrt T) in
    let d2 := d1 - v * sqrt T in
    if String.eqb type "call" then
      Return (S * normalCDF d1 - K * exp (- r * T) * normalCDF d2)
    else if String.eqb type "put" then
      Return (K * exp (- r * T) * normalCDF (- d2) - S * normalCDF (- d1))
    else Throw InvalidOptionType.

(** The loop [for (let i = 1; i < prices.length; i++)] of
    [calculateHistoricalVolatility]: [prev] is [prices[i-1]] and the head
    of [rest] is [prices[i]].  It yields the warnings and the returns. *)
Fixpoint returns_loop (prev : R) (rest : list R) : list string * list R :=
  match rest with
  | [] => ([], [])
  | p :: rest' =>
      let '(warns, returns) := returns_loop p rest' in
      if Rleb p 0 || Rleb prev 0
      then ("Invalid price data detected, skipping"%string :: warns, returns)
      else (warns, ln (p / prev) :: returns)
  end.

Definition daily_returns (prices : list R) : list string * list R :=
  match prices with
  | [] => ([], [])
  | p0 :: rest => returns_loop p0 rest
  end.

(** [calculateHistoricalVolatility(prices, period = 30)]: the
    [console.warn] lines and the returned volatility.  [prices] is an
    array, so the check of [Array.isArray] passes. *)
Definition calculateHistoricalVolatility (prices : list R) (period : Z)
  : list string * R :=
  let actualPeriod := Z.min period (Z.of_nat (List.length prices) - 1) in
  if (List.length prices <? 2)%nat then
    (["Insufficient price data for volatility calculation, using default value"%string],
     0.3)
  else
    let '(warns, returns) := daily_returns prices in
    if (List.length returns =? 0)%nat then
      (warns ++ ["No valid returns calculated, using default volatility"%string], 0.3)
    else
      let mean :=
        fold_left (fun sum val => sum + val) returns 0 / INR (List.length returns) in
      let variance :=
        fold_left (fun sum val => sum + (val - mean) ^ 2) returns 0
        / INR (List.length returns) in
      let dailyVolatility := sqrt variance in
      (warns, dailyVolatility * sqrt DAYS_PER_YEAR).

(** The [for] loop of [impliedVolatility], with the number of iterations
    left and the current value of [v].  Over the reals [vega] is never 0;
    in floating point [Math.exp] can underflow to 0 and the step
    [diff / vega] is then infinite, so the value of [v] after a step is
    that of exact arithmetic only. *)
Fixpoint impliedVolatility_loop (iterations : nat) (type : string)
    (marketPrice S K T r v : R) : completion PricingError R :=
  match iterations with
  | O => Return v
  | Datatypes.S iterations' =>
    match blackScholes type S K T r v with
    | Throw e => Throw e
    | Return price =>
      let diff := marketPrice - price in
      if Rltb (Rabs diff) 0.00001 then Return v
      else
        let d1 := (ln (S / K) + (r + v * v / 2) * T) / (v * sqrt T) in
        let vega := S * sqrt T * 0.3989423 * exp (- d1 * d1 / 2) in
        let v := v + diff / vega in
        let v := if Rleb v 0 then 0.001 else v in
        impliedVolatility_loop iterations' type marketPrice S K T r v
    end
  end.

(** [impliedVolatility(type, marketPrice, S, K, T, r)]. *)
Definition impliedVolatility (type : string) (marketPrice S K T r : R)
  : completion PricingError R :=
  let v := 0.3 in
  let MAX_ITERATIONS := 100%nat in
  impliedVolatility_loop MAX_ITERATIONS type marketPrice S K T r v.

Record Contract : Type := mkContract {
  strike : R;
  price : R;
  delta : R;
  gamma : R;
  theta : R;
  vega : R;
  rho : R;
  inTheMoney : bool
}.

Record ExpiryData : Type := mkExpiryData {
  calls : list Contract;
  puts : list Contract
}.

(** The contract pushed by the [catch] branch of [generateOptionChain]. *)
Definition placeholder (strike : R) : Contract :=
  mkContract strike 0 0 0 0 0 0 false.

(** The body of [strikes.forEach(strike => { try ... catch ... })]: the
    call and the put pushed for one strike. *)
Definition priceStrike (currentPrice volatility riskFreeRate timeToExpiry
    strike : R) : Contract * Contract :=
  match blackScholes "call" currentPrice strike timeToExpiry riskFreeRate
          volatility with
  | Throw _ => (placeholder strike, placeholder strike)
  | Return callPrice =>
    match blackScholes "put" currentPrice strike timeToExpiry riskFreeRate
            volatility with
    | Throw _ => (placeholder strike, placeholder strike)
    | Return putPrice =>
      let d1 := (ln (currentPrice / strike)
                 + (riskFreeRate + volatility * volatility / 2) * timeToExpiry)
                / (volatility * sqrt timeToExpiry) in
      let d2 := d1 - volatility * sqrt timeToExpiry in
      let callDelta := normalCDF d1 in
      let putDelta := callDelta - 1 in
      let gamma := 0.3989423 * exp (- d1 * d1 / 2)
                   / (currentPrice * volatility * sqrt timeToExpiry) in
      let theta := - currentPrice * volatility * 0.3989423 * exp (- d1 * d1 / 2)
                     / (2 * sqrt timeToExpiry)
                   - riskFreeRate * strike * exp (- riskFreeRate * timeToExpiry) in
      let callTheta := theta / DAYS_PER_YEAR in
      let putTheta :=
        (theta + riskFreeRate * strike * exp (- riskFreeRate * timeToExpiry))
        / DAYS_PER_YEAR in
      let vega := currentPrice * sqrt timeToExpiry * 0.3989423
                  * exp (- d1 * d1 / 2) / 100 in
      let callRho := strike * timeToExpiry * exp (- riskFreeRate * timeToExpiry)
                     * normalCDF d2 / 100 in
      let putRho := - strike * timeToExpiry * exp (- riskFreeRate * timeToExpiry)
                    * normalCDF (- d2) / 100 in
      (mkContract strike callPrice callDelta gamma callTheta vega callRho
         (Rgtb currentPrice strike),
       mkContract strike putPrice putDelta gamma putTheta vega putRho
         (Rltb currentPrice strike))
    end
  end.

(** [expiryData] after [strikes.forEach]: each strike pushes one call and
    one put. *)
Definition expiryDataFor (currentPrice volatility riskFreeRate timeToExpiry : R)
    (strikes : list R) : ExpiryData :=
  fold_left
    (fun expiryData strike =>
       let '(call, put) :=
         priceStrike currentPrice volatility riskFreeRate timeToExpiry strike in
       mkExpiryData (calls expiryData ++ [call]) (puts expiryData ++ [put]))
    strikes (mkExpiryData [] []).

(** The strikes of [generateOptionChain], in the order they are pushed.
    The step is meant to be other than 0: at 0 the code divides by zero
    and its strikes are [NaN], which [R] does not have. *)
Definition strikesOf (currentPrice : R) (strikePriceCount : Z)
    (strikePriceStep : R) : list R :=
  let baseStrike := Math_round (currentPrice / strikePriceStep) * strikePriceStep in
  map (fun i => baseStrike + IZR i * strikePriceStep)
    (for_range (- (strikePriceCount / 2)) (strikePriceCount / 2)).

(** [generateOptionChain(currentPrice, volatility, riskFreeRate,
    daysToExpiration, strikePriceCount = 10, strikePriceStep = 5)]. *)
Definition generateOptionChain (currentPrice volatility riskFreeRate : R)
    (daysToExpiration : list R) (strikePriceCount : Z) (strikePriceStep : R)
  : completion PricingError (list (R * ExpiryData)) :=
  if Rleb currentPrice 0 then Throw CurrentPriceNotPositive
  else
    let volatility :=
      if Rleb volatility 0 || negb (isFinite volatility) then 0.3
      else volatility in
    let volatility := if Rltb 2 volatility then 2 else volatility in
    let strikes := strikesOf currentPrice strikePriceCount strikePriceStep in
    Return
      (fold_left
         (fun optionChain days =>
            let expiry := days in
            let timeToExpiry := days / DAYS_PER_YEAR in
            obj_set Reqb expiry
              (expiryDataFor currentPrice volatility riskFreeRate timeToExpiry
                 strikes)
              optionChain)
         daysToExpiration []).

End OptionCalc.

(** ** server/alphaVantageService.js: retry with backoff *)

Module AlphaVantage.
Open Scope Z_scope.

(** [error.response] of a failed HTTP call: the status and the payload as
    [data.toString()] gives it, when there is a payload. *)
Record HttpResponse : Type := mkHttpResponse {
  status : Z;
  data : option string
}.

Record RequestError : Type := mkRequestError {
  message : string;
  response : option HttpResponse
}.

(** [s.includes(sub)]. *)
Definition includes (s sub : string) : bool :=
  match String.index 0 sub s with Some _ => true | None => false end.

Definition isRateLimit (error : RequestError) : bool :=
  match response error with
  | None => false
  | Some resp =>
      (status resp =? 429)
      || match data resp with
         | None => false
         | Some d => includes d "limit"
         end
  end.

(** The [while (true)] loop of [retryWithBackoff], entered with the current
    value of [retries].  [fn k] is the outcome of the call of [fn] made when
    [retries] is [k].  The result is the list of delays waited, in order,
    and the completion of the whole call. *)
Equations? retry_loop {A : Type} (fn : Z -> completion RequestError A)
    (maxRetries initialDelay retries : Z)
  : list Z * completion RequestError A
  by wf (Z.to_nat (maxRetries - retries)) lt :=
  retry_loop fn maxRetries initialDelay retries with fn retries => {
    | Return a := ([], Return a);
    | Throw error with Z_ge_dec retries maxRetries => {
        | left _ := ([], Throw error);
        | right _ :=
            let delay :=
              if isRateLimit error
              then initialDelay * 2 ^ retries * 2
              else initialDelay * 2 ^ retries in
            let '(delays, result) :=
              retry_loop fn maxRetries initialDelay (retries + 1) in
            (delay :: delays, result) } }.
Proof. lia. Qed.

(** [retryWithBackoff(fn, maxRetries = 3, initialDelay = 1000)]. *)
Definition retryWithBackoff {A : Type} (fn : Z -> completion RequestError A)
    (maxRetries initialDelay : Z) : list Z * completion RequestError A :=
  retry_loop fn maxRetries initialDelay 0.

(** *** The database and the provider *)

(** The double quote. *)
Definition dquote : string := String "034"%char EmptyString.

(** A string is truthy when it is not empty. *)
Definition nonempty (s : string) : bool := negb (String.eqb s "").

(** [tickerExistsInDatabase(ticker)]: [dbGet] is the outcome of the
    [COUNT] query, a thrown error, no row, or the row with its [count]. *)
Definition tickerExistsInDatabase (dbGet : completion string (option Z)) : bool :=
  match dbGet with
  | Return (Some count) => (0 <? count)%Z
  | Return None => false
  | Throw _ => false
  end.

(** One entry of the provider's time series, its fields as [parseFloat]
    and [parseInt] read them. *)
Record DailyEntry : Type := mkDailyEntry {
  entry_open : R;
  entry_high : R;
  entry_low : R;
  entry_close : R;
  entry_volume : Z
}.

(** [response.data], a JSON object: the value of ['Error Message'] and of
    ['Note'] when it has the property, and the object under
    ['Time Series (Daily)'] as its entries, one per date. *)
Record ApiData : Type := mkApiData {
  errorMessage : option string;
  note : option string;
  timeSeries : option (list (string * DailyEntry))
}.

(** A bar of the chart; [time] is [None] when the date is invalid. *)
Record Bar : Type := mkBar {
  time : option R;
  open : R;
  high : R;
  low : R;
  close : R;
  volume : Z
}.

(** The commands sent to the database by [fetchAndStoreStockData]. *)
Inductive DbCommand : Type :=
| Begin
| Insert (ticker date : string) (entry : DailyEntry)
| Finalize
| Commit
| Rollback.

(** The database: given the commands already sent, whether the next one
    succeeds ([None]) or fails with a message. *)
Definition Database : Type := list DbCommand -> DbCommand -> option string.

(** The validation of the response: the time series, or the message of
    the error thrown. *)
Definition validateResponse (ticker : string) (data : ApiData)
  : completion string (list (string * DailyEntry)) :=
  match errorMessage data with
  | Some msg =>
      Throw (if nonempty msg then msg
             else "Invalid response from Alpha Vantage"%string)
  | None =>
    let noData :=
      Throw ("No data found for ticker " ++ dquote ++ ticker ++ dquote
             ++ " via Alpha Vantage API")%string in
    let series :=
      match timeSeries data with
      | None => noData
      | Some [] => noData
      | Some entries => Return entries
      end in
    match note data with
    | Some n =>
        if includes n "limit"
        then Throw ("Alpha Vantage API rate limit reached: " ++ n)%string
        else series
    | None => series
    end
  end.

(** [for (const date of dates) await stmtRun(...)]: the commands sent and
    the error of the insert that failed, if one did. *)
Fixpoint insertAll (db : Database) (ticker : string)
    (entries : list (string * DailyEntry)) (sent : list DbCommand)
  : list DbCommand * option string :=
  match entries with
  | [] => (sent, None)
  | (date, entry) :: entries' =>
      let command := Insert ticker date entry in
      match db sent command with
      | Some error => (sent ++ [command], Some error)
      | None => insertAll db ticker entries' (sent ++ [command])
      end
  end.

(** The [catch] of the inner [try]: [ROLLBACK], then the error is thrown
    again, unless the rollback itself throws. *)
Definition rollback (db : Database) (sent : list DbCommand) (error : string)
  : list DbCommand * string :=
  match db sent Rollback with
  | Some rollbackError => (sent ++ [Rollback], rollbackError)
  | None => (sent ++ [Rollback], error)
  end.

Section Fetch.

(** [new Date(s).getTime()], [None] for an invalid date. *)
Variable parseDate : string -> option Z.

(** [new Date(date).getTime() / 1000]. *)
Definition unixSeconds (date : string) : option R :=
  match parseDate date with
  | Some ms => Some (IZR ms / 1000)%R
  | None => None
  end.

(** The part of [fetchAndStoreStockData] that stores the series: the
    commands sent, and the bars returned or the message of the error.
    [db.prepare] sends nothing by itself. *)
Definition storeSeries (db : Database) (ticker : string)
    (timeSeries : list (string * DailyEntry))
  : list DbCommand * completion string (list Bar) :=
  let dates := sort (fun a b => String.leb (fst a) (fst b)) timeSeries in
  match db [] Begin with
  | Some error => ([Begin], Throw error)
  | None =>
    match insertAll db ticker dates [Begin] with
    | (sent, Some error) =>
        let '(sent, error) := rollback db sent error in (sent, Throw error)
    | (sent, None) =>
      match db sent Finalize with
      | Some error =>
          let '(sent, error) := rollback db (sent ++ [Finalize]) error in
          (sent, Throw error)
      | None =>
        match db (sent ++ [Finalize]) Commit with
        | Some error =>
            let '(sent, error) :=
              rollback db (sent ++ [Finalize; Commit]) error in
            (sent, Throw error)
        | None =>
            (sent ++ [Finalize; Commit],
             Return
               (map (fun '(date, entry) =>
                       mkBar (unixSeconds date) (entry_open entry)
                         (entry_high entry) (entry_low entry)
                         (entry_close entry) (entry_volume entry))
                  dates))
        end
      end
    end
  end.

(** [fetchAndStoreStockData(ticker)]: [API_KEY] is the key of the
    environment, [fn k] the outcome of the request made when [retries] is
    [k].  The result holds the delays waited, the commands sent to the
    database, and the bars returned or the message of the error thrown. *)
Definition fetchAndStoreStockData (API_KEY : option string)
    (fn : Z -> completion RequestError ApiData) (db : Database)
    (ticker : string)
  : list Z * list DbCommand * completion string (list Bar) :=
  let keyMissing :=
    ([], [],
     Throw "Alpha Vantage API key not set. Please configure ALPHA_VANTAGE_API_KEY in .env file."%string) in
  match API_KEY with
  | None => keyMissing
  | Some key =>
    if negb (nonempty key) || String.eqb key "your_api_key_here"
    then keyMissing
    else
      let failed (message : string) :=
        Throw ("Failed to fetch data for " ++ ticker ++ ": " ++ message)%string in
      match retryWithBackoff fn 3 1000 with
      | (delays, Throw error) => (delays, [], failed (message error))
      | (delays, Return data) =>
        match validateResponse ticker data with
        | Throw message => (delays, [], failed message)
        | Return timeSeries =>
          match storeSeries db ticker timeSeries with
          | (sent, Throw message) => (delays, sent, failed message)
          | (sent, Return formattedData) => (delays, sent, Return formattedData)
          end
        end
      end
  end.

(** [updateExistingStockData(ticker)]: [countRow] and [latestRow] are the
    outcomes of the two queries, the second giving the row and its
    [latestDate]; [fetch] is the completion of [fetchAndStoreStockData]
    when it is called.  The result is the value returned and whether
    [fetchAndStoreStockData] was called. *)
Definition updateExistingStockData {A : Type} (today : Z)
    (countRow : completion string (option Z))
    (latestRow : completion string (option (option string)))
    (fetch : completion string A) : bool * bool :=
  if negb (tickerExistsInDatabase countRow) then (false, false)
  else
    match latestRow with
    | Throw _ => (false, false)
    | Return None => (false, false)
    | Return (Some None) => (false, false)
    | Return (Some (Some latest)) =>
      if negb (nonempty latest) then (false, false)
      else
        let upToDate :=
          match parseDate latest with
          | Some latestDate =>
              let dayDiff := ((today - latestDate) / (1000 * 60 * 60 * 24))%Z in
              (dayDiff <? 1)%Z
          | None => false
          end in
        if upToDate then (true, false)
        else
          match fetch with
          | Return _ => (true, true)
          | Throw _ => (false, true)
          end
    end.

End Fetch.

End AlphaVantage.

(** ** server/server.js: the handler of [/api/options/:ticker] *)

Module Server.
Import OptionCalc.
Open Scope R_scope.

(** A contract of the route: like that of [optionCalc.js], without [rho]. *)
Record Contract : Type := mkContract {
  strike : R;
  price : R;
  delta : R;
  gamma : R;
  theta : R;
  vega : R;
  inTheMoney : bool
}.

Record ExpiryData : Type := mkExpiryData {
  calls : list Contract;
  puts : list Contract
}.

(** What the database callback receives: [err], or the closes of the
    30 most recent rows, newest first. *)
Inductive DbResult : Type :=
| DbError (message : string)
| DbRows (rows : list R).

Inductive Response : Type :=
| Status500 (error : string)
| Status404 (error : string)
| Json (ticker : string) (price volatility : R)
       (optionChain : list (Z * ExpiryData)) (customDate : option string).

(** The volatility used for pricing, with the warnings of the estimator. *)
Definition volatilityOf (rows : list R) : list string * R :=
  let volatility := 0.25 in
  let closingPrices := rows in
  if (1 <? List.length closingPrices)%nat then
    let '(warns, volatility) := calculateHistoricalVolatility closingPrices 30 in
    (warns, Rmax 0.1 (Rmin volatility 0.8))
  else ([], volatility).

(** The strike ladder of the route. *)
Definition strikeLadder (currentPrice : R) : list R :=
  let baseStrike := Math_round (currentPrice / 5) * 5 in
  let strikeStep := 5 in
  let strikesCount := 10%Z in
  let strikes :=
    map (fun i => baseStrike + IZR i * strikeStep)
      (for_range (- (strikesCount / 2)) (strikesCount / 2)) in
  sort (fun a b => Rleb b a) strikes.

Definition msPerDay : Z := 1000 * 60 * 60 * 24.

(** [Math.ceil(a / b)] for integers [a] and [b]. *)
Definition Math_ceil_div (a b : Z) : Z := (- ((- a) / b))%Z.

Section Handler.

(** [new Date(s).getTime()]: the time stamp in milliseconds, [None] for an
    invalid date. *)
Variable parseDate : string -> option Z.

(** [new Date()]: the current time in milliseconds. *)
Variable today : Z.

(** A string is truthy when it is not empty. *)
Definition truthy (s : string) : bool := negb (String.eqb s "").

(** The expiry ladder, with the [console.warn] line of a date that is
    not in the future. *)
Definition expiryLadder (requestedDate : option string) : list string * list Z :=
  let daysToExpiration := [0; 30; 60; 90; 180]%Z in
  match requestedDate with
  | None => ([], daysToExpiration)
  | Some date =>
    if truthy date then
      match parseDate date with
      | Some targetDate =>
        if (today <? targetDate)%Z then
          let diffTime := Z.abs (targetDate - today) in
          let diffDays := Math_ceil_div diffTime msPerDay in
          let daysToExpiration :=
            filter (fun d => negb (d =? 0)%Z) daysToExpiration in
          let daysToExpiration := diffDays :: daysToExpiration in
          ([], sort Z.leb daysToExpiration)
        else
          (["Requested date is not in the future, ignoring:"%string],
           daysToExpiration)
      | None =>
        (["Requested date is not in the future, ignoring:"%string],
         daysToExpiration)
      end
    else ([], daysToExpiration)
  end.

(** The contract pushed by the [catch] branch of the route. *)
Definition placeholder (strike : R) : Contract :=
  mkContract strike 0.01 0 0 0 0 false.

(** The body of [strikes.forEach(strike => { try ... catch ... })]. *)
Definition priceStrike (currentPrice volatility riskFreeRate timeToExpiry
    strike : R) : Contract * Contract :=
  match blackScholes "call" currentPrice strike timeToExpiry riskFreeRate
          volatility with
  | Throw _ => (placeholder strike, placeholder strike)
  | Return callPrice =>
    match blackScholes "put" currentPrice strike timeToExpiry riskFreeRate
            volatility with
    | Throw _ => (placeholder strike, placeholder strike)
    | Return putPrice =>
      let d1 := (ln (currentPrice / strike)
                 + (riskFreeRate + volatility * volatility / 2) * timeToExpiry)
                / (volatility * sqrt timeToExpiry) in
      let d2 := d1 - volatility * sqrt timeToExpiry in
      let callDelta := normalCDF d1 in
      let putDelta := callDelta - 1 in
      let normDist := exp (- d1 * d1 / 2) / sqrt (2 * PI) in
      let gamma := normDist / (currentPrice * volatility * sqrt timeToExpiry) in
      let callTheta :=
        (- currentPrice * normDist * volatility / (2 * sqrt timeToExpiry)
         - riskFreeRate * strike * exp (- riskFreeRate * timeToExpiry)
           * normalCDF d2) / 365 in
      let putTheta :=
        (- currentPrice * normDist * volatility / (2 * sqrt timeToExpiry)
         + riskFreeRate * strike * exp (- riskFreeRate * timeToExpiry)
           * normalCDF (- d2)) / 365 in
      let vega := currentPrice * sqrt timeToExpiry * normDist / 100 in
      (mkContract strike (Rmax 0.01 callPrice) callDelta gamma callTheta vega
         (Rgtb currentPrice strike),
       mkContract strike (Rmax 0.01 putPrice) putDelta gamma putTheta vega
         (Rltb currentPrice strike))
    end
  end.

Definition expiryDataFor (currentPrice volatility riskFreeRate timeToExpiry : R)
    (strikes : list R) : ExpiryData :=
  fold_left
    (fun expiryData strike =>
       let '(call, put) :=
         priceStrike currentPrice volatility riskFreeRate timeToExpiry strike in
       mkExpiryData (calls expiryData ++ [call]) (puts expiryData ++ [put]))
    strikes (mkExpiryData [] []).

(** [daysToExpiration.forEach(days => ...)]: the option chain. *)
Definition optionChainOf (currentPrice volatility riskFreeRate : R)
    (strikes : list R) (daysToExpiration : list Z) : list (Z * ExpiryData) :=
  fold_left
    (fun optionChain days =>
       let timeToExpiry := if (days =? 0)%Z then 1 / 365 else IZR days / 365 in
       obj_set Z.eqb days
         (expiryDataFor currentPrice volatility riskFreeRate timeToExpiry strikes)
         optionChain)
    daysToExpiration [].

(** The handler: the [console.warn] lines and the response sent. *)
Definition optionsHandler (ticker : string) (requestedDate : option string)
    (db : DbResult) : list string * Response :=
  match db with
  | DbError message => ([], Status500 ("Database error: " ++ message))
  | DbRows [] => ([], Status404 "No price data found for ticker")
  | DbRows ((row0 :: _) as rows) =>
    let currentPrice := row0 in
    let '(warns1, volatility) := volatilityOf rows in
    let strikes := strikeLadder currentPrice in
    let '(warns2, daysToExpiration) := expiryLadder requestedDate in
    let riskFreeRate := 0.035 in
    let optionChain :=
      optionChainOf currentPrice volatility riskFreeRate strikes
        daysToExpiration in
    (warns1 ++ warns2,
     Json ticker currentPrice volatility optionChain
       (match requestedDate with
        | Some date => if truthy date then Some date else None
        | None => None
        end))
  end.

End Handler.

(** *** The price route: staleness and the answer to a fetch *)

Section Freshness.

Variable parseDate : string -> option Z.

(** [new Date()]. *)
Variable currentDate : Z.

(** [isDataStale(ticker)]: [row] is what [db.get] passes to the callback,
    an error, no row, or the row with its [latest_date]. *)
Definition isDataStale (row : completion string (option (option string)))
  : bool :=
  match row with
  | Throw _ => false
  | Return None => true
  | Return (Some None) => true
  | Return (Some (Some latest_date)) =>
    if negb (truthy latest_date) then true
    else
      match parseDate latest_date with
      | Some latestDate =>
          let diffTime := (currentDate - latestDate)%Z in
          let diffDays := Math_ceil_div diffTime msPerDay in
          (7 <? diffDays)%Z
      | None => false
      end
  end.

End Freshness.

Inductive PricesResponse : Type :=
| Prices503 (error : string)
| Prices404 (error : string)
| Prices500 (error : string)
| PricesJson (formattedData : list AlphaVantage.Bar).

(** [fetchFromAlphaVantage()] in the price route: the answer sent for the
    completion of [fetchAndStoreStockData]. *)
Definition fetchFromAlphaVantage (ticker : string)
    (fetched : completion string (list AlphaVantage.Bar)) : PricesResponse :=
  match fetched with
  | Return formattedData =>
      if (List.length formattedData =? 0)%nat
      then Prices404 ("No data found for ticker " ++ ticker
                      ++ ". Please check if the symbol is valid.")%string
      else PricesJson formattedData
  | Throw message =>
      if AlphaVantage.includes message "apikey"
      then Prices503 "Alpha Vantage API key not configured. Please set ALPHA_VANTAGE_API_KEY in .env file."
      else if AlphaVantage.includes message "No data found for ticker"
      then Prices404 ("Ticker symbol " ++ AlphaVantage.dquote ++ ticker
                      ++ AlphaVantage.dquote
                      ++ " not found. Please check if the symbol is valid.")%string
      else Prices500 message
  end.

End Server.

(** ** The database initialisation script: the import of a CSV file *)

Module InitDb.
Open Scope string_scope.

(** [s.split('/')]. *)
Fixpoint split_slash (s : string) : list string :=
  match s with
  | EmptyString => [EmptyString]
  | String c rest =>
      if Ascii.eqb c "/" then EmptyString :: split_slash rest
      else
        match split_slash rest with
        | part :: parts => String c part :: parts
        | [] => [String c EmptyString]
        end
  end.

(** [s.padStart(2, '0')]. *)
Definition padStart2 (s : string) : string :=
  match s with
  | EmptyString => "00"
  | String c EmptyString => String "0" s
  | _ => s
  end.

(** [dateStr] for the [Date] column of a row: [None] when the row is
    skipped for its date format. *)
Definition dateStr (Date : string) : option string :=
  let dateParts := split_slash Date in
  match dateParts with
  | [part0; part1; part2] =>
      Some (part2 ++ "-" ++ padStart2 part0 ++ "-" ++ padStart2 part1)
  | _ => None
  end.

End InitDb.

(** ** Auxiliary notions of the proofs *)

Module Aux.
Open Scope R_scope.

(** The values [d1] and [d2] of [blackScholes]. *)
Definition d1_of (S K T r v : R) : R :=
  (ln (S / K) + (r + v * v / 2) * T) / (v * sqrt T).

Definition d2_of (S K T r v : R) : R :=
  d1_of S K T r v - v * sqrt T.

(** The value [prob] of [normalCDF] before the sign flip; it depends on
    [x] through [|x|] and [x * x] only. *)
Definition cdf_tail (x : R) : R :=
  let t := 1 / (1 + 0.2316419 * Rabs x) in
  let d := 0.3989423 * exp (- x * x / 2) in
  d * t * (0.3193815 + t * (-0.3565638 + t * (1.781478 +
             t * (-1.821256 + t * 1.330274)))).

(** The [delay] of [retryWithBackoff] after the failure met when
    [retries] has the given value. *)
Definition backoff (initialDelay retries : Z) (error : AlphaVantage.RequestError)
  : Z :=
  if AlphaVantage.isRateLimit error
  then (initialDelay * 2 ^ retries * 2)%Z
  else (initialDelay * 2 ^ retries)%Z.

(** The validation at the head of [blackScholes] passes. *)
Definition priced (S K T v : R) : bool :=
  negb (Rleb S 0) && negb (Rleb K 0) && negb (Rleb T 0) && negb (Rleb v 0).

(** [timeToExpiry] in the route, for a day count. *)
Definition routeTime (days : Z) : R :=
  if (days =? 0)%Z then 1 / 365 else IZR days / 365.

(** [volatility] in [generateOptionChain] after the default and the cap. *)
Definition chainVolatility (volatility : R) : R :=
  let volatility :=
    if Rleb volatility 0 || negb (isFinite volatility) then 0.3
    else volatility in
  if Rltb 2 volatility then 2 else volatility.

(** The mean and the population variance as
    [calculateHistoricalVolatility] computes them with [reduce]. *)
Definition mean_of (returns : list R) : R :=
  fold_left (fun sum val => sum + val) returns 0 / INR (List.length returns).

Definition variance_of (returns : list R) : R :=
  fold_left (fun sum val => sum + (val - mean_of returns) ^ 2) returns 0
  / INR (List.length returns).

(** What one step of the loop of [calculateHistoricalVolatility] adds to
    [returns] for the adjacent closes [prev] and [p]. *)
Definition pair_return (prev p : R) : list R :=
  if Rleb p 0 || Rleb prev 0 then [] else [ln (p / prev)].

(** A string without the character [/]. *)
Fixpoint no_slash (s : string) : bool :=
  match s with
  | EmptyString => true
  | String c rest => negb (Ascii.eqb c "/") && no_slash rest
  end.

(** The sum of a list of integers. *)
Definition Zsum (l : list Z) : Z := fold_right Z.add 0%Z l.

(** The sum of a list of numbers. *)
Definition Rsum (l : list R) : R := fold_right Rplus 0 l.

End Aux.

(** ** Statements of the specification, in its own words *)

Module Spec.
Import OptionCalc.
Open Scope R_scope.

(** Put-call parity within a tolerance: both prices are returned and
    [call - put] is within [tol] of [S - K e^(-rT)]. *)
Definition put_call_parity_within (tol S K T r v : R) : Prop :=
  exists call put,
    blackScholes "call" S K T r v = Return call
    /\ blackScholes "put" S K T r v = Return put
    /\ Rabs ((call - put) - (S - K * exp (- r * T))) <= tol.

(** The invariant of the data model on the chain of the route: the
    [inTheMoney] flag of a call is [spot > strike], of a put
    [spot < strike]; delta is in [[0,1]] for calls, in [[-1,0]] for puts. *)
Definition contract_invariant (spot : R) (chain : list (Z * Server.ExpiryData))
  : Prop :=
  forall days expiryData,
    In (days, expiryData) chain ->
    (forall c, In c (Server.calls expiryData) ->
       Server.inTheMoney c = Rgtb spot (Server.strike c)
       /\ 0 <= Server.delta c <= 1)
    /\ (forall c, In c (Server.puts expiryData) ->
          Server.inTheMoney c = Rltb spot (Server.strike c)
          /\ -1 <= Server.delta c <= 0).


(** The closes inside the window: the most recent [min(window, n-1)]
    returns are those of the last [min(window, n-1) + 1] closes. *)
Definition window_closes (closes : list R) (window : Z) : list R :=
  let n := List.length closes in
  let k := Z.to_nat (Z.min window (Z.of_nat n - 1)) in
  skipn (n - (k + 1)) closes.

(** The usable closes: what remains after discarding the non-positive
    entries. *)
Definition usable (closes : list R) : list R :=
  filter (fun p => Rltb 0 p) closes.

End Spec.

(** * Properties *)

(** ** Comparisons *)

Section ComparisonFacts.
Open Scope R_scope.

Lemma Rleb_true (a b : R) : a <= b -> Rleb a b = true.
Proof. intros H. unfold Rleb. destruct (Rle_dec a b); [reflexivity | contradiction]. Qed.

Lemma Rleb_false (a b : R) : b < a -> Rleb a b = false.
Proof. intros H. unfold Rleb. destruct (Rle_dec a b); [lra | reflexivity]. Qed.

Lemma Rltb_true (a b : R) : a < b -> Rltb a b = true.
Proof. intros H. unfold Rltb. destruct (Rlt_dec a b); [reflexivity | contradiction]. Qed.

Lemma Rltb_false (a b : R) : b <= a -> Rltb a b = false.
Proof. intros H. unfold Rltb. destruct (Rlt_dec a b); [lra | reflexivity]. Qed.

Lemma Rleb_spec (a b : R) : reflect (a <= b) (Rleb a b).
Proof. unfold Rleb. destruct (Rle_dec a b); constructor; assumption. Qed.

Lemma Rltb_spec (a b : R) : reflect (a < b) (Rltb a b).
Proof. unfold Rltb. destruct (Rlt_dec a b); constructor; assumption. Qed.

Lemma Math_round_eq (x : R) (n : Z) :
  IZR n - 1 / 2 <= x < IZR n + 1 / 2 -> Math_round x = IZR n.
Proof.
  intros [Hlo Hhi]. unfold Math_round. f_equal. symmetry.
  apply Int_part_spec. lra.
Qed.

End ComparisonFacts.

(** ** The pricer *)

Section PricerFacts.
Import OptionCalc Aux.
Open Scope R_scope.

(** The validation of [blackScholes] passes on positive inputs. *)
Lemma blackScholes_valid (type : string) (S K T r v : R) :
  0 < S -> 0 < K -> 0 < T -> 0 < v ->
  blackScholes type S K T r v =
    if Rltb T 0.00001 then
      if String.eqb type "call" then Return (Rmax 0 (S - K))
      else Return (Rmax 0 (K - S))
    else
      if String.eqb type "call" then
        Return (S * normalCDF (d1_of S K T r v)
                - K * exp (- r * T) * normalCDF (d2_of S K T r v))
      else if String.eqb type "put" then
        Return (K * exp (- r * T) * normalCDF (- d2_of S K T r v)
                - S * normalCDF (- d1_of S K T r v))
      else Throw InvalidOptionType.
Proof.
  intros HS HK HT Hv. unfold blackScholes.
  rewrite !Rleb_false by assumption. reflexivity.
Qed.

(** A thrown error tells which check failed. *)
Lemma blackScholes_throws (type : string) (S K T r v : R) (e : PricingError) :
  blackScholes type S K T r v = Throw e ->
  S <= 0 \/ K <= 0 \/ T <= 0 \/ v <= 0
  \/ (e = InvalidOptionType /\ 0.00001 <= T
      /\ type <> "call"%string /\ type <> "put"%string).
Proof.
  unfold blackScholes.
  destruct (Rleb_spec S 0); [tauto |].
  destruct (Rleb_spec K 0); [tauto |].
  destruct (Rleb_spec T 0); [tauto |].
  destruct (Rleb_spec v 0); [tauto |].
  destruct (Rltb_spec T 0.00001).
  - destruct (String.eqb type "call"); discriminate.
  - destruct (String.eqb_spec type "call"); [discriminate |].
    destruct (String.eqb_spec type "put"); [discriminate |].
    intros H. injection H as <-. right. right. right. right.
    repeat split; try assumption. lra.
Qed.

(** C7: below the threshold 1/100000 the price is the intrinsic value, for
    calls [max(0, S-K)] and for puts [max(0, K-S)]; hence the price tends
    to the intrinsic value as [T] tends to 0 from above. *)
Theorem blackScholes_near_expiry_intrinsic (S K r v : R) :
  0 < S -> 0 < K -> 0 < v ->
  (forall T, 0 < T < 1 / 100000 ->
     blackScholes "call" S K T r v = Return (Rmax 0 (S - K))
     /\ blackScholes "put" S K T r v = Return (Rmax 0 (K - S)))
  /\ (forall eps, 0 < eps ->
      exists delta, 0 < delta /\
        forall T, 0 < T < delta ->
          exists c p,
            blackScholes "call" S K T r v = Return c
            /\ blackScholes "put" S K T r v = Return p
            /\ Rabs (c - Rmax 0 (S - K)) < eps
            /\ Rabs (p - Rmax 0 (K - S)) < eps).
Proof.
  intros HS HK Hv.
  assert (Hnear : forall T, 0 < T < 1 / 100000 ->
     blackScholes "call" S K T r v = Return (Rmax 0 (S - K))
     /\ blackScholes "put" S K T r v = Return (Rmax 0 (K - S))).
  { intros T [HT0 HT1].
    rewrite !blackScholes_valid by assumption.
    rewrite Rltb_true by lra. split; reflexivity. }
  split; [exact Hnear |].
  intros eps Heps. exists (1 / 100000). split; [lra |].
  intros T HT. destruct (Hnear T HT) as [Hc Hp].
  exists (Rmax 0 (S - K)), (Rmax 0 (K - S)).
  repeat split; try assumption.
  - rewrite Rminus_diag, Rabs_R0. assumption.
  - rewrite Rminus_diag, Rabs_R0. assumption.
Qed.

Lemma blackScholes_near_expiry_intrinsic_witness :
  (forall T, 0 < T < 1 / 100000 ->
     blackScholes "call" 101 100 T 0.035 0.3 = Return (Rmax 0 (101 - 100))
     /\ blackScholes "put" 101 100 T 0.035 0.3 = Return (Rmax 0 (100 - 101)))
  /\ (forall eps, 0 < eps ->
      exists delta, 0 < delta /\
        forall T, 0 < T < delta ->
          exists c p,
            blackScholes "call" 101 100 T 0.035 0.3 = Return c
            /\ blackScholes "put" 101 100 T 0.035 0.3 = Return p
            /\ Rabs (c - Rmax 0 (101 - 100)) < eps
            /\ Rabs (p - Rmax 0 (100 - 101)) < eps).
Proof.
  apply (blackScholes_near_expiry_intrinsic 101 100 0.035 0.3); lra.
Defined.

(** C10: below the threshold every type other than ['call'] gets the put
    intrinsic value and nothing is thrown; the invalid-type error needs
    [T >= 0.00001]. *)
Theorem blackScholes_near_expiry_any_type (type : string) (S K T r v : R) :
  (0 < S -> 0 < K -> 0 < v -> 0 < T < 0.00001 -> type <> "call"%string ->
   blackScholes type S K T r v = Return (Rmax 0 (K - S)))
  /\ (blackScholes type S K T r v = Throw InvalidOptionType -> 0.00001 <= T).
Proof.
  split.
  - intros HS HK Hv [HT0 HT1] Hty.
    rewrite blackScholes_valid by assumption.
    rewrite Rltb_true by assumption.
    destruct (String.eqb_spec type "call"); [contradiction | reflexivity].
  - unfold blackScholes.
    destruct (Rleb S 0); [discriminate |].
    destruct (Rleb K 0); [discriminate |].
    destruct (Rleb T 0); [discriminate |].
    destruct (Rleb v 0); [discriminate |].
    destruct (Rltb_spec T 0.00001).
    + destruct (String.eqb type "call"); discriminate.
    + intros _. lra.
Qed.

Lemma blackScholes_near_expiry_any_type_witness :
  blackScholes "straddle" 100 105 (1 / 1000000) 0.035 0.3
  = Return (Rmax 0 (105 - 100))
  /\ 0.00001 <= 1.
Proof.
  split.
  - apply (blackScholes_near_expiry_any_type "straddle" 100 105 (1 / 1000000)
             0.035 0.3); try lra.
    discriminate.
  - apply (blackScholes_near_expiry_any_type "straddle" 100 105 1 0.035 0.3).
    rewrite blackScholes_valid, Rltb_false by lra. reflexivity.
Defined.

End PricerFacts.

(** ** Put-call parity *)

Section ParityFacts.
Import OptionCalc Aux.
Open Scope R_scope.

Lemma cdf_tail_even (x : R) : cdf_tail (- x) = cdf_tail x.
Proof.
  unfold cdf_tail. rewrite Rabs_Ropp.
  replace (- - x * - x / 2) with (- x * x / 2) by lra. reflexivity.
Qed.

Lemma normalCDF_pos (x : R) : 0 < x -> normalCDF x = 1 - cdf_tail x.
Proof. intros H. unfold normalCDF. rewrite Rltb_true by assumption. reflexivity. Qed.

Lemma normalCDF_nonpos (x : R) : x <= 0 -> normalCDF x = cdf_tail x.
Proof. intros H. unfold normalCDF. rewrite Rltb_false by assumption. reflexivity. Qed.

(** [cdf(-x) + cdf(x) = 1] away from 0. *)
Lemma normalCDF_reflect (x : R) : x <> 0 -> normalCDF x + normalCDF (- x) = 1.
Proof.
  intros Hx. destruct (Rlt_le_dec 0 x) as [Hpos | Hneg].
  - rewrite (normalCDF_pos x), (normalCDF_nonpos (- x)) by lra.
    rewrite cdf_tail_even. lra.
  - rewrite (normalCDF_nonpos x), (normalCDF_pos (- x)) by lra.
    rewrite cdf_tail_even. lra.
Qed.

(** At 0 the approximation is a little below one half. *)
Lemma normalCDF_0 : normalCDF 0 = 0.3989423 * 1.2533137.
Proof.
  rewrite normalCDF_nonpos by lra. unfold cdf_tail.
  rewrite Rabs_R0. replace (- 0 * 0 / 2) with 0 by lra. rewrite exp_0.
  replace (1 / (1 + 0.2316419 * 0)) with 1 by lra. lra.
Qed.

(** C1, as stated, fails below the near-expiry threshold: at
    [S = K = 100], [T = 9e-6], [r = 0.035], [v = 0.3] both prices are the
    intrinsic value 0, while [S - K e^(-rT)] is above [3e-5]. *)
Lemma put_call_parity_fails_near_expiry :
  ~ Spec.put_call_parity_within (1 / 1000000) 100 100 (9 / 1000000) 0.035 0.3.
Proof.
  intros (c & p & Hc & Hp & Hpar).
  rewrite blackScholes_valid in Hc, Hp by lra.
  rewrite Rltb_true in Hc, Hp by lra. simpl in Hc, Hp.
  injection Hc as <-. injection Hp as <-.
  replace (100 - 100) with 0 in Hpar by lra.
  rewrite Rmax_left in Hpar by lra.
  set (a := 0.035 * (9 / 1000000)) in *.
  replace (- (0.035) * (9 / 1000000)) with (- a) in Hpar by (unfold a; lra).
  assert (Ha : 1 + a < exp a) by (apply exp_ineq1; unfold a; lra).
  assert (Hinv : exp (- a) * exp a = 1).
  { rewrite <- exp_plus. replace (- a + a) with 0 by lra. apply exp_0. }
  assert (Hpos : 0 < exp (- a)) by apply exp_pos.
  assert (Hlt : exp (- a) * (1 + a) < 1) by nra.
  assert (Hbig : 1 / 1000000 < 100 - 100 * exp (- a)) by (unfold a in *; nra).
  revert Hpar. unfold Rabs. destruct (Rcase_abs _); lra.
Qed.

(** C1, amended: from the threshold on, and when neither [d1] nor [d2] is
    0, [call - put] is exactly [S - K e^(-rT)]; below the threshold it is
    [S - K]. *)
Theorem put_call_parity (S K T r v : R) :
  0 < S -> 0 < K -> 0 < T -> 0 < v ->
  (0.00001 <= T -> d1_of S K T r v <> 0 -> d2_of S K T r v <> 0 ->
   exists call put,
     blackScholes "call" S K T r v = Return call
     /\ blackScholes "put" S K T r v = Return put
     /\ call - put = S - K * exp (- r * T))
  /\ (T < 0.00001 ->
      exists call put,
        blackScholes "call" S K T r v = Return call
        /\ blackScholes "put" S K T r v = Return put
        /\ call - put = S - K).
Proof.
  intros HS HK HT Hv. split.
  - intros Hfar Hd1 Hd2.
    rewrite !blackScholes_valid by assumption.
    rewrite Rltb_false by assumption. simpl.
    eexists. eexists. split; [reflexivity |]. split; [reflexivity |].
    pose proof (normalCDF_reflect _ Hd1) as H1.
    pose proof (normalCDF_reflect _ Hd2) as H2.
    set (e := K * exp (- r * T)) in *.
    set (n1 := normalCDF (d1_of S K T r v)) in *.
    set (n2 := normalCDF (d2_of S K T r v)) in *.
    set (m1 := normalCDF (- d1_of S K T r v)) in *.
    set (m2 := normalCDF (- d2_of S K T r v)) in *.
    replace n1 with (1 - m1) by lra. replace n2 with (1 - m2) by lra.
    ring.
  - intros Hnear.
    rewrite !blackScholes_valid by assumption.
    rewrite Rltb_true by assumption. simpl.
    eexists. eexists. split; [reflexivity |]. split; [reflexivity |].
    unfold Rmax. destruct (Rle_dec 0 (S - K)), (Rle_dec 0 (K - S)); lra.
Qed.

End ParityFacts.

Section ParityExamples.
Import OptionCalc Aux.
Open Scope R_scope.

Lemma put_call_parity_witness :
  (exists call put,
     blackScholes "call" 100 100 1 0.035 0.3 = Return call
     /\ blackScholes "put" 100 100 1 0.035 0.3 = Return put
     /\ call - put = 100 - 100 * exp (- (0.035) * 1))
  /\ (exists call put,
        blackScholes "call" 101 100 (9 / 1000000) 0.035 0.3 = Return call
        /\ blackScholes "put" 101 100 (9 / 1000000) 0.035 0.3 = Return put
        /\ call - put = 101 - 100).
Proof.
  split.
  - apply (put_call_parity 100 100 1 0.035 0.3); try lra.
    + unfold d1_of. replace (100 / 100) with 1 by lra.
      rewrite ln_1, sqrt_1. lra.
    + unfold d2_of, d1_of. replace (100 / 100) with 1 by lra.
      rewrite ln_1, sqrt_1. lra.
  - apply (put_call_parity 101 100 (9 / 1000000) 0.035 0.3); lra.
Defined.

(** The second restriction of the amended C1 is needed as well: with
    [d1 = 0] the two values of the approximation at 0 add up to less than
    1, and at [S = 100] parity is off by about [3e-5]. *)
Lemma put_call_parity_fails_at_d1_zero :
  d1_of 100 100 1 (-0.125) 0.5 = 0
  /\ ~ Spec.put_call_parity_within (1 / 1000000) 100 100 1 (-0.125) 0.5.
Proof.
  assert (Hd1 : d1_of 100 100 1 (-0.125) 0.5 = 0).
  { unfold d1_of. replace (100 / 100) with 1 by lra.
    rewrite ln_1, sqrt_1. lra. }
  assert (Hd2 : d2_of 100 100 1 (-0.125) 0.5 = - 0.5).
  { unfold d2_of. rewrite Hd1, sqrt_1. lra. }
  split; [exact Hd1 |].
  intros (c & p & Hc & Hp & Hpar).
  rewrite blackScholes_valid in Hc, Hp by lra.
  rewrite Rltb_false in Hc, Hp by lra. simpl in Hc, Hp.
  injection Hc as <-. injection Hp as <-.
  rewrite Hd1, Hd2, Ropp_0, normalCDF_0 in Hpar.
  assert (Hsum : normalCDF (- 0.5) + normalCDF (- - 0.5) = 1)
    by (apply normalCDF_reflect; lra).
  set (e := 100 * exp (- (-0.125) * 1)) in *.
  set (n := normalCDF (- 0.5)) in *.
  set (m := normalCDF (- - 0.5)) in *.
  assert (He : 0 < e) by (unfold e; pose proof (exp_pos (- (-0.125) * 1)); lra).
  replace m with (1 - n) in Hpar by lra.
  revert Hpar. unfold Rabs. destruct (Rcase_abs _); lra.
Qed.

End ParityExamples.

(** ** Sorting *)

Section SortFacts.
Context {A : Type} (leb : A -> A -> bool).

Lemma insert_perm (x : A) (l : list A) : Permutation (insert leb x l) (x :: l).
Proof.
  induction l as [| y l IH]; simpl.
  - apply Permutation_refl.
  - destruct (leb x y).
    + apply Permutation_refl.
    + apply perm_trans with (y :: x :: l).
      * apply perm_skip, IH.
      * apply perm_swap.
Qed.

Lemma sort_perm (l : list A) : Permutation (sort leb l) l.
Proof.
  induction l as [| x l IH]; simpl.
  - apply perm_nil.
  - apply perm_trans with (x :: sort leb l).
    + apply insert_perm.
    + apply perm_skip, IH.
Qed.

Hypothesis leb_total : forall a b, leb a b = true \/ leb b a = true.
Hypothesis leb_trans :
  forall a b c, leb a b = true -> leb b c = true -> leb a c = true.

Let le (a b : A) : Prop := leb a b = true.

Lemma insert_sorted (x : A) (l : list A) :
  StronglySorted le l -> StronglySorted le (insert leb x l).
Proof.
  induction 1 as [| y l Hs IH Hall]; simpl.
  - constructor; constructor.
  - destruct (leb x y) eqn:Hxy.
    + constructor.
      * constructor; assumption.
      * constructor; [exact Hxy |].
        eapply Forall_impl; [| exact Hall].
        intros z Hz. exact (leb_trans _ _ _ Hxy Hz).
    + constructor; [exact IH |].
      assert (Hyx : le y x) by (destruct (leb_total x y); [congruence | assumption]).
      apply Forall_forall. intros z Hz.
      apply (Permutation_in _ (insert_perm x l)) in Hz.
      destruct Hz as [<- | Hz]; [exact Hyx |].
      rewrite Forall_forall in Hall. apply Hall, Hz.
Qed.

Lemma sort_sorted (l : list A) : StronglySorted le (sort leb l).
Proof.
  induction l as [| x l IH]; simpl.
  - constructor.
  - apply insert_sorted, IH.
Qed.

(** An element below all the others goes last. *)
Lemma insert_last (x : A) (l : list A) :
  Forall (fun y => leb x y = false) l -> insert leb x l = l ++ [x].
Proof.
  induction 1 as [| y l Hy _ IH]; simpl.
  - reflexivity.
  - rewrite Hy, IH. reflexivity.
Qed.

End SortFacts.

Section SortNumbers.
Open Scope R_scope.

(** Sorting a strictly ascending list of numbers with the comparator
    [(a, b) => b - a] reverses it. *)
Lemma sort_descending_of_ascending (l : list R) :
  StronglySorted Rlt l -> sort (fun a b => Rleb b a) l = rev l.
Proof.
  induction 1 as [| x l Hs IH Hall]; simpl.
  - reflexivity.
  - rewrite IH. apply insert_last.
    apply Forall_forall. intros y Hy. apply in_rev in Hy.
    rewrite Forall_forall in Hall. apply Rleb_false, Hall, Hy.
Qed.

Lemma sort_Z_sorted (l : list Z) : StronglySorted Z.le (sort Z.leb l).
Proof.
  pose proof (sort_sorted Z.leb) as H.
  assert (Hs : StronglySorted (fun a b => (a <=? b)%Z = true) (sort Z.leb l)).
  { apply H.
    - intros a b. rewrite !Z.leb_le. lia.
    - intros a b c. rewrite !Z.leb_le. lia. }
  clear H. induction Hs as [| x l' _ IH Hall]; constructor.
  - exact IH.
  - eapply Forall_impl; [| exact Hall]. intros z Hz. apply Z.leb_le, Hz.
Qed.

End SortNumbers.

(** ** The strike ladder *)

Section StrikeFacts.
Open Scope R_scope.

Ltac list_eq := repeat (apply f_equal2; [lra |]); try reflexivity.

(** The route's ladder: eleven strikes, from [base + 25] down to
    [base - 25]. *)
Lemma strikeLadder_eq (currentPrice : R) :
  Server.strikeLadder currentPrice =
  map (fun i => Math_round (currentPrice / 5) * 5 + IZR i * 5)
    [5; 4; 3; 2; 1; 0; -1; -2; -3; -4; -5]%Z.
Proof.
  unfold Server.strikeLadder.
  change (for_range (- (10 / 2)) (10 / 2))
    with [-5; -4; -3; -2; -1; 0; 1; 2; 3; 4; 5]%Z.
  rewrite sort_descending_of_ascending.
  - reflexivity.
  - simpl. set (b := Math_round (currentPrice / 5) * 5).
    repeat (constructor; [| repeat (constructor; try lra)]). constructor.
Qed.

Lemma strikeLadder_length (currentPrice : R) :
  List.length (Server.strikeLadder currentPrice) = 11%nat.
Proof. rewrite strikeLadder_eq. reflexivity. Qed.

Lemma Math_round_101_5 : Math_round (101 / 5) = 20.
Proof. apply (Math_round_eq _ 20). lra. Qed.

(** C2: at spot 101 the base strike is 100 and the route's ladder
    descends in steps of 5, but it has eleven strikes, 125 down to 75, and
    not the ten strikes 125 down to 80; [generateOptionChain] builds the
    same eleven strikes and leaves them ascending. *)
Theorem strikeLadder_101_has_eleven_strikes :
  Math_round (101 / 5) * 5 = 100
  /\ Server.strikeLadder 101 = [125; 120; 115; 110; 105; 100; 95; 90; 85; 80; 75]
  /\ Server.strikeLadder 101 <> [125; 120; 115; 110; 105; 100; 95; 90; 85; 80]
  /\ OptionCalc.strikesOf 101 10 5
     = [75; 80; 85; 90; 95; 100; 105; 110; 115; 120; 125].
Proof.
  assert (Hl : Server.strikeLadder 101
               = [125; 120; 115; 110; 105; 100; 95; 90; 85; 80; 75]).
  { rewrite strikeLadder_eq, Math_round_101_5. simpl. list_eq. }
  split; [rewrite Math_round_101_5; lra |].
  split; [exact Hl |].
  split; [rewrite Hl; discriminate |].
  unfold OptionCalc.strikesOf. rewrite Math_round_101_5.
  change (for_range (- (10 / 2)) (10 / 2))
    with [-5; -4; -3; -2; -1; 0; 1; 2; 3; 4; 5]%Z.
  simpl. list_eq.
Qed.

End StrikeFacts.

Section StrikeCount.
Open Scope Z_scope.

(** The loop of the strike builder runs [2 * floor(count / 2) + 1] times:
    one strike more than [count] when [count] is even. *)
Lemma strikesOf_length (currentPrice : R) (count : Z) (step : R) :
  0 <= count ->
  Z.of_nat (List.length (OptionCalc.strikesOf currentPrice count step))
  = 2 * (count / 2) + 1.
Proof.
  intros Hc. unfold OptionCalc.strikesOf, for_range.
  rewrite !length_map, length_seq.
  assert (0 <= count / 2) by (apply Z.div_pos; lia).
  lia.
Qed.

End StrikeCount.

(** ** The expiry ladder *)

Section ExpiryFacts.
Open Scope Z_scope.

Variable parseDate : string -> option Z.
Variable today : Z.

Lemma Math_ceil_div_spec (a b q : Z) :
  0 < b -> (q - 1) * b < a <= q * b -> Server.Math_ceil_div a b = q.
Proof.
  intros Hb [Hlo Hhi]. unfold Server.Math_ceil_div.
  assert (- a / b = - q); [| lia].
  symmetry. apply (Z.div_unique_pos (- a) b (- q) (q * b - a)); lia.
Qed.

Lemma Math_ceil_div_bounds (a b : Z) :
  0 < b ->
  (Server.Math_ceil_div a b - 1) * b < a <= Server.Math_ceil_div a b * b.
Proof.
  intros Hb. unfold Server.Math_ceil_div.
  pose proof (Z.div_mod (- a) b ltac:(lia)) as Hdm.
  pose proof (Z.mod_pos_bound (- a) b Hb) as Hm.
  nia.
Qed.

Lemma expiryLadder_future (date : string) (targetDate : Z) :
  Server.truthy date = true -> parseDate date = Some targetDate ->
  today < targetDate ->
  Server.expiryLadder parseDate today (Some date)
  = ([], sort Z.leb
           (Server.Math_ceil_div (targetDate - today) Server.msPerDay
            :: [30; 60; 90; 180])).
Proof.
  intros Ht Hp Hlt. unfold Server.expiryLadder.
  rewrite Ht, Hp. apply Z.ltb_lt in Hlt as Hb. rewrite Hb.
  rewrite Z.abs_eq by lia. reflexivity.
Qed.

Lemma expiryLadder_default (requestedDate : option string) :
  (forall date targetDate,
     requestedDate = Some date -> parseDate date = Some targetDate ->
     targetDate <= today) ->
  snd (Server.expiryLadder parseDate today requestedDate) = [0; 30; 60; 90; 180].
Proof.
  intros Hpast. unfold Server.expiryLadder.
  destruct requestedDate as [date |]; [| reflexivity].
  destruct (Server.truthy date); [| reflexivity].
  destruct (parseDate date) as [targetDate |] eqn:Hp; [| reflexivity].
  specialize (Hpast date targetDate eq_refl Hp).
  apply Z.ltb_ge in Hpast. rewrite Hpast. reflexivity.
Qed.

(** The handler answers every non-empty result set with the chain. *)
Lemma optionsHandler_json (ticker : string) (requestedDate : option string)
    (row0 : R) (rows : list R) :
  exists warns volatility customDate,
    Server.optionsHandler parseDate today ticker requestedDate
      (Server.DbRows (row0 :: rows))
    = (warns,
       Server.Json ticker row0 volatility
         (Server.optionChainOf row0 volatility 0.035
            (Server.strikeLadder row0)
            (snd (Server.expiryLadder parseDate today requestedDate)))
         customDate).
Proof.
  unfold Server.optionsHandler.
  destruct (Server.volatilityOf (row0 :: rows)) as [w1 vol].
  destruct (Server.expiryLadder parseDate today requestedDate) as [w2 days].
  do 3 eexists. reflexivity.
Qed.

End ExpiryFacts.

Section ExpiryClaim.
Open Scope Z_scope.

(** C8: for a supplied date, with [targetDate] and [today] in milliseconds:
    a target strictly in the future replaces the 0-day entry by the day
    count [diffDays], the least integer with
    [targetDate - today <= diffDays * 86400000], and the ladder is the
    ascending arrangement of [diffDays, 30, 60, 90, 180]; a target more
    than 44 and at most 45 days ahead gives [30, 45, 60, 90, 180]; a date
    that does not parse, or a target that is not in the future, leaves
    [0, 30, 60, 90, 180], and the handler still answers with the chain
    over that ladder. *)
Theorem expiryLadder_target_date (parseDate : string -> option Z) (today : Z)
    (date : string) :
  Server.truthy date = true ->
  let ladder := snd (Server.expiryLadder parseDate today (Some date)) in
  (forall targetDate,
     parseDate date = Some targetDate -> today < targetDate ->
     exists diffDays,
       (diffDays - 1) * 86400000 < targetDate - today <= diffDays * 86400000
       /\ Permutation ladder (diffDays :: [30; 60; 90; 180])
       /\ StronglySorted Z.le ladder)
  /\ (forall targetDate,
        parseDate date = Some targetDate ->
        44 * 86400000 < targetDate - today <= 45 * 86400000 ->
        ladder = [30; 45; 60; 90; 180])
  /\ (parseDate date = None
      \/ (exists targetDate,
            parseDate date = Some targetDate /\ targetDate <= today) ->
      ladder = [0; 30; 60; 90; 180]
      /\ forall ticker row0 rows,
           exists warns volatility,
             Server.optionsHandler parseDate today ticker (Some date)
               (Server.DbRows (row0 :: rows))
             = (warns,
                Server.Json ticker row0 volatility
                  (Server.optionChainOf row0 volatility 0.035
                     (Server.strikeLadder row0) [0; 30; 60; 90; 180])
                  (Some date))).
Proof.
  intros Ht ladder. subst ladder. split; [| split].
  - intros targetDate Hp Hlt.
    exists (Server.Math_ceil_div (targetDate - today) Server.msPerDay).
    rewrite (expiryLadder_future parseDate today date targetDate Ht Hp Hlt).
    cbn [snd]. split; [| split].
    + apply (Math_ceil_div_bounds (targetDate - today) 86400000). lia.
    + apply sort_perm.
    + apply sort_Z_sorted.
  - intros targetDate Hp Hr.
    assert (Hlt : today < targetDate) by lia.
    rewrite (expiryLadder_future parseDate today date targetDate Ht Hp Hlt).
    rewrite (Math_ceil_div_spec (targetDate - today) Server.msPerDay 45).
    + reflexivity.
    + reflexivity.
    + exact Hr.
  - intros Hcase.
    assert (Hd : snd (Server.expiryLadder parseDate today (Some date))
                 = [0; 30; 60; 90; 180]).
    { apply expiryLadder_default. intros d t Hd Hpd.
      injection Hd as <-.
      destruct Hcase as [Hn | (t' & Hp & Hle)].
      - rewrite Hn in Hpd. discriminate Hpd.
      - rewrite Hp in Hpd. injection Hpd as <-. exact Hle. }
    split; [exact Hd |].
    intros ticker row0 rows.
    destruct (optionsHandler_json parseDate today ticker (Some date) row0 rows)
      as (w & vol & cd & H).
    exists w, vol. rewrite H, Hd. f_equal. f_equal.
    unfold Server.optionsHandler in H. rewrite Ht in H.
    destruct (Server.volatilityOf (row0 :: rows)) as [w1 vol1].
    destruct (Server.expiryLadder parseDate today (Some date)) as [w2 days].
    injection H as _ _ _ Hcd. symmetry. exact Hcd.
Qed.

Lemma expiryLadder_target_date_witness :
  let inDays := fun _ : string => Some 3887999000 in
  let invalid := fun _ : string => @None Z in
  snd (Server.expiryLadder inDays 0 (Some "2026-12-17"%string))
  = [30; 45; 60; 90; 180]
  /\ (exists diffDays,
        (diffDays - 1) * 86400000 < 3887999000 - 0 <= diffDays * 86400000
        /\ Permutation
             (snd (Server.expiryLadder inDays 0 (Some "2026-12-17"%string)))
             (diffDays :: [30; 60; 90; 180])
        /\ StronglySorted Z.le
             (snd (Server.expiryLadder inDays 0 (Some "2026-12-17"%string))))
  /\ snd (Server.expiryLadder inDays 3974400000 (Some "2026-12-17"%string))
     = [0; 30; 60; 90; 180]
  /\ snd (Server.expiryLadder invalid 0 (Some "tomorrow"%string))
     = [0; 30; 60; 90; 180].
Proof.
  intros inDays invalid. split; [| split; [| split]].
  - apply (proj1 (proj2 (expiryLadder_target_date inDays 0 "2026-12-17"
                           eq_refl)) 3887999000); [reflexivity | lia].
  - apply (proj1 (expiryLadder_target_date inDays 0 "2026-12-17" eq_refl)
             3887999000); [reflexivity | lia].
  - apply (proj2 (proj2 (expiryLadder_target_date inDays 3974400000
                           "2026-12-17" eq_refl))).
    right. exists 3887999000. split; [reflexivity | lia].
  - apply (proj2 (proj2 (expiryLadder_target_date invalid 0 "tomorrow"
                           eq_refl))).
    left. reflexivity.
Defined.

End ExpiryClaim.

(** ** Retry with backoff *)

Section RetryFacts.
Import AlphaVantage Aux.
Open Scope Z_scope.

Context {A : Type}.
Variable fn : Z -> completion RequestError A.

Lemma retry_loop_return (maxRetries initialDelay retries : Z) (a : A) :
  fn retries = Return a ->
  retry_loop fn maxRetries initialDelay retries = ([], Return a).
Proof. intros H. simp retry_loop. rewrite H. reflexivity. Qed.

Lemma retry_loop_exhausted (maxRetries initialDelay retries : Z)
    (error : RequestError) :
  fn retries = Throw error -> maxRetries <= retries ->
  retry_loop fn maxRetries initialDelay retries = ([], Throw error).
Proof.
  intros H Hge. simp retry_loop. rewrite H. simpl.
  destruct (Z_ge_dec retries maxRetries); [reflexivity | lia].
Qed.

Lemma retry_loop_again (maxRetries initialDelay retries : Z)
    (error : RequestError) :
  fn retries = Throw error -> retries < maxRetries ->
  retry_loop fn maxRetries initialDelay retries
  = (backoff initialDelay retries error
       :: fst (retry_loop fn maxRetries initialDelay (retries + 1)),
     snd (retry_loop fn maxRetries initialDelay (retries + 1))).
Proof.
  intros H Hlt. rewrite retry_loop_equation_1. rewrite H. simpl.
  destruct (Z_ge_dec retries maxRetries); [lia |]. simpl.
  destruct (retry_loop fn maxRetries initialDelay (retries + 1)).
  reflexivity.
Qed.

End RetryFacts.

Section RetryClaim.
Import AlphaVantage Aux.
Open Scope Z_scope.

Context {A : Type}.

Lemma for_range_cons (lo hi : Z) :
  lo <= hi -> for_range lo hi = lo :: for_range (lo + 1) hi.
Proof.
  intros Hle. unfold for_range.
  replace (Z.to_nat (hi - lo + 1)) with (S (Z.to_nat (hi - (lo + 1) + 1))) by lia.
  simpl. rewrite Z.add_0_r. f_equal.
  rewrite <- seq_shift, map_map. apply map_ext. intros k. lia.
Qed.

Lemma for_range_empty (lo hi : Z) : hi < lo -> for_range lo hi = [].
Proof.
  intros Hlt. unfold for_range.
  replace (Z.to_nat (hi - lo + 1)) with 0%nat by lia. reflexivity.
Qed.

(** When every call fails, the loop waits once per retry left and ends
    with the error of the last call. *)
Lemma retry_loop_all_fail (fn : Z -> completion RequestError A)
    (err : Z -> RequestError) (maxRetries initialDelay : Z) (n : nat) :
  forall retries,
    Z.of_nat n = maxRetries - retries ->
    (forall k, retries <= k <= maxRetries -> fn k = Throw (err k)) ->
    retry_loop fn maxRetries initialDelay retries
    = (map (fun k => backoff initialDelay k (err k))
         (for_range retries (maxRetries - 1)),
       Throw (err maxRetries)).
Proof.
  induction n as [| n IH]; intros retries Hn Hfail.
  - assert (retries = maxRetries) by lia. subst retries.
    rewrite (retry_loop_exhausted fn _ _ _ (err maxRetries)) by (auto with zarith).
    rewrite for_range_empty by lia. reflexivity.
  - rewrite (retry_loop_again fn _ _ _ (err retries)) by (try apply Hfail; lia).
    rewrite (IH (retries + 1)) by (try lia; intros; apply Hfail; lia).
    rewrite (for_range_cons retries (maxRetries - 1)) by lia.
    reflexivity.
Qed.

(** C9: with 3 retries from 1000 ms and every call failing, the delays are
    1000, 2000, 4000 ms when no failure is rate-limiting and 2000, 4000,
    8000 ms when all are; after the last retry the error of the last call
    is thrown, whatever the number of retries. *)
Theorem retryWithBackoff_delays (fn : Z -> completion RequestError A)
    (err : Z -> RequestError) :
  (forall k, 0 <= k -> fn k = Throw (err k)) ->
  ((forall k, 0 <= k < 3 -> isRateLimit (err k) = false) ->
   retryWithBackoff fn 3 1000 = ([1000; 2000; 4000], Throw (err 3)))
  /\ ((forall k, 0 <= k < 3 -> isRateLimit (err k) = true) ->
      retryWithBackoff fn 3 1000 = ([2000; 4000; 8000], Throw (err 3)))
  /\ (forall maxRetries initialDelay,
        0 <= maxRetries ->
        snd (retryWithBackoff fn maxRetries initialDelay)
        = Throw (err maxRetries)).
Proof.
  intros Hfail.
  assert (Hall : forall maxRetries initialDelay, 0 <= maxRetries ->
            retryWithBackoff fn maxRetries initialDelay
            = (map (fun k => backoff initialDelay k (err k))
                 (for_range 0 (maxRetries - 1)),
               Throw (err maxRetries))).
  { intros m d Hm. unfold retryWithBackoff.
    apply (retry_loop_all_fail fn err m d (Z.to_nat m)); [lia |].
    intros k Hk. apply Hfail. lia. }
  split; [| split].
  - intros Hno. rewrite Hall by lia.
    change (for_range 0 (3 - 1)) with [0; 1; 2]. simpl. unfold backoff.
    rewrite !Hno by lia. reflexivity.
  - intros Hyes. rewrite Hall by lia.
    change (for_range 0 (3 - 1)) with [0; 1; 2]. simpl. unfold backoff.
    rewrite !Hyes by lia. reflexivity.
  - intros m d Hm. rewrite Hall by assumption. reflexivity.
Qed.

End RetryClaim.

Section RetryExamples.
Import AlphaVantage.
Open Scope Z_scope.

Lemma retryWithBackoff_delays_witness :
  let timeout := mkRequestError "timeout of 10000ms exceeded" None in
  let limited :=
    mkRequestError "Request failed with status code 429"
      (Some (mkHttpResponse 429 None)) in
  retryWithBackoff (A := unit) (fun _ => Throw timeout) 3 1000
  = ([1000; 2000; 4000], Throw timeout)
  /\ retryWithBackoff (A := unit) (fun _ => Throw limited) 3 1000
     = ([2000; 4000; 8000], Throw limited).
Proof.
  intros timeout limited. split.
  - apply (retryWithBackoff_delays (fun _ => Throw timeout) (fun _ => timeout));
      reflexivity.
  - apply (retryWithBackoff_delays (fun _ => Throw limited) (fun _ => limited));
      reflexivity.
Defined.

(** The loop runs: a call that succeeds at the third attempt, the second
    failure being rate-limited by its payload. *)
Example retryWithBackoff_run :
  retryWithBackoff
    (fun k =>
       if k =? 0 then Throw (mkRequestError "socket hang up" None)
       else if k =? 1 then
         Throw (mkRequestError "busy"
                  (Some (mkHttpResponse 200 (Some "API call limit reached"%string))))
       else Return 7)
    3 1000
  = ([1000; 4000], Return 7).
Proof. reflexivity. Qed.

End RetryExamples.

(** ** Bounds on the normal distribution *)

Section CdfBounds.
Import OptionCalc Aux.
Open Scope R_scope.

Lemma exp_nonpos_le_1 (y : R) : y <= 0 -> exp y <= 1.
Proof.
  intros [Hlt | ->].
  - left. rewrite <- exp_0. apply exp_increasing, Hlt.
  - rewrite exp_0. lra.
Qed.

Lemma cdf_poly_bounds (t : R) :
  0 <= t <= 1 ->
  0 <= 0.3193815 + t * (-0.3565638 + t * (1.781478 +
         t * (-1.821256 + t * 1.330274))) <= 2.5.
Proof. intros H. split; nra. Qed.

Lemma cdf_tail_bounds (x : R) : 0 <= cdf_tail x <= 1.
Proof.
  unfold cdf_tail.
  set (t := 1 / (1 + 0.2316419 * Rabs x)).
  set (e := exp (- x * x / 2)).
  assert (Ht : 0 < t <= 1).
  { unfold t. pose proof (Rabs_pos x) as Ha.
    assert (Hden : 1 <= 1 + 0.2316419 * Rabs x) by nra.
    split.
    - apply Rdiv_lt_0_compat; lra.
    - unfold Rdiv. rewrite Rmult_1_l. rewrite <- Rinv_1 at 2.
      apply Rinv_le_contravar; lra. }
  assert (He : 0 < e <= 1).
  { unfold e. split; [apply exp_pos |].
    apply exp_nonpos_le_1. nra. }
  pose proof (cdf_poly_bounds t ltac:(lra)) as Hp.
  set (p := 0.3193815 + t * (-0.3565638 + t * (1.781478 +
                t * (-1.821256 + t * 1.330274)))) in *.
  assert (Htp : 0 <= t * p <= 2.5) by nra.
  split; nra.
Qed.

Lemma normalCDF_bounds (x : R) : 0 <= normalCDF x <= 1.
Proof.
  pose proof (cdf_tail_bounds x) as H.
  destruct (Rlt_le_dec 0 x).
  - rewrite normalCDF_pos by assumption. lra.
  - rewrite normalCDF_nonpos by assumption. lra.
Qed.

End CdfBounds.

(** ** Objects used as maps *)

Section ObjectFacts.
Context {K V : Type} (eqb : K -> K -> bool).
Hypothesis eqb_spec : forall a b, reflect (a = b) (eqb a b).
Variable f : K -> V.

(** Every entry holds the value that [f] gives to its key. *)
Local Abbreviation graph_of o := (forall k v, In (k, v) o -> v = f k).

Lemma obj_set_in (key : K) (o : list (K * V)) :
  graph_of o ->
  forall k v,
    In (k, v) (obj_set eqb key (f key) o)
    <-> In (k, v) o \/ (k = key /\ v = f key).
Proof.
  induction o as [| [k0 w0] o IH]; intros Hg k v; simpl.
  - split.
    + intros [H | []]. injection H as <- <-. right. split; reflexivity.
    + intros [[] | [-> ->]]. left. reflexivity.
  - assert (Hw0 : w0 = f k0) by (apply Hg; left; reflexivity).
    assert (Hg' : graph_of o) by (intros k' v' H'; apply Hg; right; exact H').
    destruct (eqb_spec k0 key) as [-> | Hne]; simpl.
    + rewrite <- Hw0. split.
      * intros H. left. exact H.
      * intros [H | [-> ->]]; [exact H | left; reflexivity].
    + rewrite (IH Hg' k v). tauto.
Qed.

Lemma obj_fold_in (keys : list K) :
  forall o, graph_of o ->
  forall k v,
    In (k, v) (fold_left (fun o key => obj_set eqb key (f key) o) keys o)
    <-> In (k, v) o \/ (In k keys /\ v = f k).
Proof.
  induction keys as [| key keys IH]; intros o Hg k v; simpl.
  - tauto.
  - rewrite IH.
    + rewrite (obj_set_in key o Hg). split.
      * intros [[H | [-> ->]] | [H ->]]; auto.
      * intros [H | [[<- | H] ->]]; auto.
    + intros k' v'. rewrite (obj_set_in key o Hg).
      intros [H | [-> ->]]; [apply Hg, H | reflexivity].
Qed.

Lemma obj_build_in (keys : list K) (k : K) (v : V) :
  In (k, v) (fold_left (fun o key => obj_set eqb key (f key) o) keys [])
  <-> In k keys /\ v = f k.
Proof.
  rewrite obj_fold_in.
  - simpl. tauto.
  - intros k' v' [].
Qed.

End ObjectFacts.

(** ** Pricing one strike *)

Section StrikePricing.
Import OptionCalc Aux.
Open Scope R_scope.

Lemma priced_true (S K T v : R) :
  priced S K T v = true <-> 0 < S /\ 0 < K /\ 0 < T /\ 0 < v.
Proof.
  unfold priced.
  destruct (Rleb_spec S 0), (Rleb_spec K 0), (Rleb_spec T 0), (Rleb_spec v 0);
    simpl; split; intros H; try discriminate; try reflexivity; lra.
Qed.

(** [blackScholes] returns for ['call'] and ['put'] exactly when the
    validation passes. *)
Lemma blackScholes_returned (type : string) (S K T r v : R) :
  type = "call"%string \/ type = "put"%string ->
  returned (blackScholes type S K T r v) = priced S K T v.
Proof.
  intros Hty. unfold blackScholes, priced.
  destruct (Rleb S 0); [reflexivity |].
  destruct (Rleb K 0); [reflexivity |].
  destruct (Rleb T 0); [reflexivity |].
  destruct (Rleb v 0); [reflexivity |].
  destruct (Rltb T 0.00001); destruct Hty as [-> | ->]; reflexivity.
Qed.

Lemma blackScholes_priced (type : string) (S K T r v : R) :
  type = "call"%string \/ type = "put"%string -> priced S K T v = true ->
  exists p, blackScholes type S K T r v = Return p.
Proof.
  intros Hty Hp. rewrite <- (blackScholes_returned type S K T r v Hty) in Hp.
  destruct (blackScholes type S K T r v) as [p | e]; [eauto | discriminate].
Qed.

Lemma blackScholes_failed (type : string) (S K T r v : R) :
  type = "call"%string \/ type = "put"%string -> priced S K T v = false ->
  exists e, blackScholes type S K T r v = Throw e.
Proof.
  intros Hty Hp. rewrite <- (blackScholes_returned type S K T r v Hty) in Hp.
  destruct (blackScholes type S K T r v) as [p | e]; [discriminate | eauto].
Qed.

(** *** The route *)

Lemma route_priceStrike_failed (S v r T K : R) :
  priced S K T v = false ->
  Server.priceStrike S v r T K = (Server.placeholder K, Server.placeholder K).
Proof.
  intros Hp. unfold Server.priceStrike.
  destruct (blackScholes_failed "call" S K T r v (or_introl eq_refl) Hp) as [e ->].
  reflexivity.
Qed.

Lemma route_priceStrike_priced (S v r T K : R) :
  priced S K T v = true ->
  exists callPrice putPrice gamma callTheta putTheta vega,
    blackScholes "call" S K T r v = Return callPrice
    /\ blackScholes "put" S K T r v = Return putPrice
    /\ Server.priceStrike S v r T K
       = (Server.mkContract K (Rmax 0.01 callPrice)
            (normalCDF (d1_of S K T r v)) gamma callTheta vega (Rgtb S K),
          Server.mkContract K (Rmax 0.01 putPrice)
            (normalCDF (d1_of S K T r v) - 1) gamma putTheta vega (Rltb S K)).
Proof.
  intros Hp. unfold Server.priceStrike.
  destruct (blackScholes_priced "call" S K T r v (or_introl eq_refl) Hp) as [c ->].
  destruct (blackScholes_priced "put" S K T r v (or_intror eq_refl) Hp) as [p ->].
  exists c, p. do 4 eexists. split; [reflexivity |]. split; reflexivity.
Qed.

Lemma route_expiryDataFor_fold (S v r T : R) (strikes : list R) :
  forall acc,
    fold_left
      (fun expiryData strike =>
         let '(call, put) := Server.priceStrike S v r T strike in
         Server.mkExpiryData (Server.calls expiryData ++ [call])
           (Server.puts expiryData ++ [put]))
      strikes acc
    = Server.mkExpiryData
        (Server.calls acc
         ++ map (fun K => fst (Server.priceStrike S v r T K)) strikes)
        (Server.puts acc
         ++ map (fun K => snd (Server.priceStrike S v r T K)) strikes).
Proof.
  induction strikes as [| K strikes IH]; intros acc; simpl.
  - rewrite !app_nil_r. destruct acc; reflexivity.
  - rewrite IH. destruct (Server.priceStrike S v r T K) as [c p]. simpl.
    rewrite <- !app_assoc. reflexivity.
Qed.

(** Each strike contributes its own call and put, in the order of the
    ladder. *)
Lemma route_expiryDataFor_map (S v r T : R) (strikes : list R) :
  Server.expiryDataFor S v r T strikes
  = Server.mkExpiryData
      (map (fun K => fst (Server.priceStrike S v r T K)) strikes)
      (map (fun K => snd (Server.priceStrike S v r T K)) strikes).
Proof. unfold Server.expiryDataFor. rewrite route_expiryDataFor_fold. reflexivity. Qed.

Lemma route_chain_in (S v r : R) (strikes : list R) (daysToExpiration : list Z)
    (days : Z) (expiryData : Server.ExpiryData) :
  In (days, expiryData) (Server.optionChainOf S v r strikes daysToExpiration)
  <-> In days daysToExpiration
      /\ expiryData = Server.expiryDataFor S v r (routeTime days) strikes.
Proof.
  unfold Server.optionChainOf.
  apply (obj_build_in Z.eqb Z.eqb_spec
           (fun days => Server.expiryDataFor S v r (routeTime days) strikes)).
Qed.

(** *** [generateOptionChain] *)

Lemma calc_priceStrike_failed (S v r T K : R) :
  priced S K T v = false ->
  priceStrike S v r T K = (placeholder K, placeholder K).
Proof.
  intros Hp. unfold priceStrike.
  destruct (blackScholes_failed "call" S K T r v (or_introl eq_refl) Hp) as [e ->].
  reflexivity.
Qed.

Lemma calc_priceStrike_priced (S v r T K : R) :
  priced S K T v = true ->
  exists callPrice putPrice gamma callTheta putTheta vega callRho putRho,
    blackScholes "call" S K T r v = Return callPrice
    /\ blackScholes "put" S K T r v = Return putPrice
    /\ priceStrike S v r T K
       = (mkContract K callPrice (normalCDF (d1_of S K T r v)) gamma callTheta
            vega callRho (Rgtb S K),
          mkContract K putPrice (normalCDF (d1_of S K T r v) - 1) gamma putTheta
            vega putRho (Rltb S K)).
Proof.
  intros Hp. unfold priceStrike.
  destruct (blackScholes_priced "call" S K T r v (or_introl eq_refl) Hp) as [c ->].
  destruct (blackScholes_priced "put" S K T r v (or_intror eq_refl) Hp) as [p ->].
  exists c, p. do 6 eexists. split; [reflexivity |]. split; reflexivity.
Qed.

Lemma calc_expiryDataFor_fold (S v r T : R) (strikes : list R) :
  forall acc,
    fold_left
      (fun expiryData strike =>
         let '(call, put) := priceStrike S v r T strike in
         mkExpiryData (calls expiryData ++ [call]) (puts expiryData ++ [put]))
      strikes acc
    = mkExpiryData
        (calls acc ++ map (fun K => fst (priceStrike S v r T K)) strikes)
        (puts acc ++ map (fun K => snd (priceStrike S v r T K)) strikes).
Proof.
  induction strikes as [| K strikes IH]; intros acc; simpl.
  - rewrite !app_nil_r. destruct acc; reflexivity.
  - rewrite IH. destruct (priceStrike S v r T K) as [c p]. simpl.
    rewrite <- !app_assoc. reflexivity.
Qed.

Lemma calc_expiryDataFor_map (S v r T : R) (strikes : list R) :
  expiryDataFor S v r T strikes
  = mkExpiryData
      (map (fun K => fst (priceStrike S v r T K)) strikes)
      (map (fun K => snd (priceStrike S v r T K)) strikes).
Proof. unfold expiryDataFor. rewrite calc_expiryDataFor_fold. reflexivity. Qed.

Lemma Reqb_spec (a b : R) : reflect (a = b) (Reqb a b).
Proof. unfold Reqb. destruct (Req_dec_T a b); constructor; assumption. Qed.

Lemma chainVolatility_pos (v : R) : 0 < chainVolatility v <= 2.
Proof.
  unfold chainVolatility, isFinite. rewrite orb_false_r.
  destruct (Rleb_spec v 0).
  - rewrite Rltb_false by lra. lra.
  - destruct (Rltb_spec 2 v); lra.
Qed.

(** The chain is thrown away only for a non-positive current price. *)
Lemma generateOptionChain_eq (S v r : R) (daysToExpiration : list R)
    (count : Z) (step : R) :
  generateOptionChain S v r daysToExpiration count step
  = if Rleb S 0 then Throw CurrentPriceNotPositive
    else Return
           (fold_left
              (fun optionChain days =>
                 obj_set Reqb days
                   (expiryDataFor S (chainVolatility v) r (days / DAYS_PER_YEAR)
                      (strikesOf S count step))
                   optionChain)
              daysToExpiration []).
Proof. reflexivity. Qed.

Lemma calc_chain_in (S v r : R) (daysToExpiration : list R) (count : Z)
    (step : R) (chain : list (R * ExpiryData)) :
  generateOptionChain S v r daysToExpiration count step = Return chain ->
  0 < S
  /\ forall days expiryData,
       In (days, expiryData) chain
       <-> In days daysToExpiration
           /\ expiryData
              = expiryDataFor S (chainVolatility v) r (days / DAYS_PER_YEAR)
                  (strikesOf S count step).
Proof.
  rewrite generateOptionChain_eq.
  destruct (Rleb_spec S 0) as [Hle | Hgt]; [discriminate |].
  intros H. injection H as <-. split; [lra |].
  intros days expiryData.
  apply (obj_build_in Reqb Reqb_spec
           (fun days =>
              expiryDataFor S (chainVolatility v) r (days / DAYS_PER_YEAR)
                (strikesOf S count step))).
Qed.

End StrikePricing.

(** ** The contracts of a chain *)

Section ContractFacts.
Import OptionCalc Aux.
Open Scope R_scope.

Lemma route_contract_pair (S v r T K : R) :
  let call := fst (Server.priceStrike S v r T K) in
  let put := snd (Server.priceStrike S v r T K) in
  (Server.strike call = K /\ Server.strike put = K)
  /\ (0 <= Server.delta call <= 1 /\ -1 <= Server.delta put <= 0)
  /\ Server.inTheMoney call = priced S K T v && Rgtb S K
  /\ Server.inTheMoney put = priced S K T v && Rltb S K.
Proof.
  destruct (priced S K T v) eqn:Hp.
  - destruct (route_priceStrike_priced S v r T K Hp)
      as (c & p & g & ct & pt & vg & _ & _ & ->).
    pose proof (normalCDF_bounds (d1_of S K T r v)) as Hb.
    simpl. repeat split; lra.
  - rewrite (route_priceStrike_failed S v r T K Hp).
    simpl. repeat split; lra.
Qed.

Lemma calc_contract_pair (S v r T K : R) :
  let call := fst (priceStrike S v r T K) in
  let put := snd (priceStrike S v r T K) in
  (strike call = K /\ strike put = K)
  /\ (0 <= delta call <= 1 /\ -1 <= delta put <= 0)
  /\ inTheMoney call = priced S K T v && Rgtb S K
  /\ inTheMoney put = priced S K T v && Rltb S K.
Proof.
  destruct (priced S K T v) eqn:Hp.
  - destruct (calc_priceStrike_priced S v r T K Hp)
      as (c & p & g & ct & pt & vg & cr & pr & _ & _ & ->).
    pose proof (normalCDF_bounds (d1_of S K T r v)) as Hb.
    simpl. repeat split; lra.
  - rewrite (calc_priceStrike_failed S v r T K Hp).
    simpl. repeat split; lra.
Qed.

Lemma route_chain_contracts (S v r : R) (strikes : list R)
    (daysToExpiration : list Z) (days : Z) (expiryData : Server.ExpiryData) :
  In (days, expiryData) (Server.optionChainOf S v r strikes daysToExpiration) ->
  (forall c, In c (Server.calls expiryData) ->
     0 <= Server.delta c <= 1
     /\ Server.inTheMoney c
        = priced S (Server.strike c) (routeTime days) v
          && Rgtb S (Server.strike c))
  /\ (forall c, In c (Server.puts expiryData) ->
        -1 <= Server.delta c <= 0
        /\ Server.inTheMoney c
           = priced S (Server.strike c) (routeTime days) v
             && Rltb S (Server.strike c)).
Proof.
  intros Hin. apply route_chain_in in Hin as [_ ->].
  rewrite route_expiryDataFor_map. simpl.
  split; intros c Hc; apply in_map_iff in Hc as (K & <- & _);
    destruct (route_contract_pair S v r (routeTime days) K)
      as ((Hk1 & Hk2) & (Hd1 & Hd2) & Hi1 & Hi2).
  - rewrite Hk1. split; assumption.
  - rewrite Hk2. split; assumption.
Qed.

Lemma calc_chain_contracts (S v r : R) (daysToExpiration : list R) (count : Z)
    (step : R) (chain : list (R * ExpiryData)) (days : R)
    (expiryData : ExpiryData) :
  generateOptionChain S v r daysToExpiration count step = Return chain ->
  In (days, expiryData) chain ->
  (forall c, In c (calls expiryData) ->
     0 <= delta c <= 1
     /\ inTheMoney c
        = priced S (strike c) (days / DAYS_PER_YEAR) (chainVolatility v)
          && Rgtb S (strike c))
  /\ (forall c, In c (puts expiryData) ->
        -1 <= delta c <= 0
        /\ inTheMoney c
           = priced S (strike c) (days / DAYS_PER_YEAR) (chainVolatility v)
             && Rltb S (strike c)).
Proof.
  intros Hgen Hin.
  apply calc_chain_in in Hgen as [_ Hchain].
  apply Hchain in Hin as [_ ->].
  rewrite calc_expiryDataFor_map. simpl.
  split; intros c Hc; apply in_map_iff in Hc as (K & <- & _);
    destruct (calc_contract_pair S (chainVolatility v) r
                (days / DAYS_PER_YEAR) K)
      as ((Hk1 & Hk2) & (Hd1 & Hd2) & Hi1 & Hi2).
  - rewrite Hk1. split; assumption.
  - rewrite Hk2. split; assumption.
Qed.

(** C6, amended: in every contract of a chain delta is in [[0,1]] for a
    call and in [[-1,0]] for a put; [inTheMoney] is [spot > strike] for a
    call and [spot < strike] for a put when the strike was priced
    (positive spot, strike, time and volatility), and [false] in the
    placeholder of a strike whose pricing threw.  This holds in the chain
    sent by the route and, for a strike step other than 0, in the chain
    returned by [generateOptionChain]. *)
Theorem chain_inTheMoney_and_delta :
  (forall parseDate today ticker requestedDate db warns ticker' spot
          volatility chain customDate days expiryData,
     Server.optionsHandler parseDate today ticker requestedDate db
     = (warns, Server.Json ticker' spot volatility chain customDate) ->
     In (days, expiryData) chain ->
     (forall c, In c (Server.calls expiryData) ->
        0 <= Server.delta c <= 1
        /\ Server.inTheMoney c
           = priced spot (Server.strike c) (routeTime days) volatility
             && Rgtb spot (Server.strike c))
     /\ (forall c, In c (Server.puts expiryData) ->
           -1 <= Server.delta c <= 0
           /\ Server.inTheMoney c
              = priced spot (Server.strike c) (routeTime days) volatility
                && Rltb spot (Server.strike c)))
  /\ (forall S v r daysToExpiration count step chain days expiryData,
        step <> 0 ->
        generateOptionChain S v r daysToExpiration count step = Return chain ->
        In (days, expiryData) chain ->
        (forall c, In c (calls expiryData) ->
           0 <= delta c <= 1
           /\ inTheMoney c
              = priced S (strike c) (days / DAYS_PER_YEAR) (chainVolatility v)
                && Rgtb S (strike c))
        /\ (forall c, In c (puts expiryData) ->
              -1 <= delta c <= 0
              /\ inTheMoney c
                 = priced S (strike c) (days / DAYS_PER_YEAR) (chainVolatility v)
                   && Rltb S (strike c))).
Proof.
  split.
  - intros parseDate today ticker requestedDate db warns ticker' spot
      volatility chain customDate days expiryData Hresp Hin.
    destruct db as [message | [| row0 rows]]; try discriminate.
    destruct (optionsHandler_json parseDate today ticker requestedDate row0 rows)
      as (w & vol & cd & Heq).
    rewrite Heq in Hresp. injection Hresp as _ _ <- <- <- _.
    apply (route_chain_contracts _ _ _ _ _ _ _ Hin).
  - intros S v r daysToExpiration count step chain days expiryData _ Hgen Hin.
    apply (calc_chain_contracts _ _ _ _ _ _ _ _ _ Hgen Hin).
Qed.

End ContractFacts.

Section ContractExamples.
Import OptionCalc Aux.
Open Scope R_scope.

(** The call at strike 100 in the chain of a single row of close 101, and
    the call at the base strike in [generateOptionChain(101, 0.3, 0.035,
    [30], 10, 5)]. *)
Lemma chain_inTheMoney_and_delta_witness :
  let call :=
    fst (Server.priceStrike 101 0.25 0.035 (routeTime 30)
           (Math_round (101 / 5) * 5 + IZR 0 * 5)) in
  let call' :=
    fst (priceStrike 101 (chainVolatility 0.3) 0.035 (30 / DAYS_PER_YEAR)
           (Math_round (101 / 5) * 5 + IZR 0 * 5)) in
  (0 <= Server.delta call <= 1
   /\ Server.inTheMoney call
      = priced 101 (Server.strike call) (routeTime 30) 0.25
        && Rgtb 101 (Server.strike call))
  /\ (0 <= delta call' <= 1
      /\ inTheMoney call'
         = priced 101 (strike call') (30 / DAYS_PER_YEAR) (chainVolatility 0.3)
           && Rgtb 101 (strike call')).
Proof.
  intros call call'. split.
  - apply (proj1 chain_inTheMoney_and_delta (fun _ => None) 0%Z "ABC"%string
             None (Server.DbRows [101]) [] "ABC"%string 101 0.25
             (Server.optionChainOf 101 0.25 0.035 (Server.strikeLadder 101)
                [0; 30; 60; 90; 180]%Z)
             None 30%Z
             (Server.expiryDataFor 101 0.25 0.035 (routeTime 30)
                (Server.strikeLadder 101))).
    + reflexivity.
    + apply route_chain_in. split; [simpl; tauto | reflexivity].
    + rewrite route_expiryDataFor_map. cbn [Server.calls].
      apply (in_map (fun K =>
               fst (Server.priceStrike 101 0.25 0.035 (routeTime 30) K))).
      rewrite strikeLadder_eq.
      apply (in_map (fun i => Math_round (101 / 5) * 5 + IZR i * 5)).
      simpl. tauto.
  - pose (expiryData :=
            expiryDataFor 101 (chainVolatility 0.3) 0.035 (30 / DAYS_PER_YEAR)
              (strikesOf 101 10 5)).
    apply (proj2 chain_inTheMoney_and_delta 101 0.3 0.035 [30] 10%Z 5
             [(30, expiryData)] 30 expiryData).
    + lra.
    + rewrite generateOptionChain_eq, Rleb_false by lra. reflexivity.
    + left. reflexivity.
    + unfold expiryData. rewrite calc_expiryDataFor_map. cbn [calls].
      apply (in_map (fun K =>
               fst (priceStrike 101 (chainVolatility 0.3) 0.035
                      (30 / DAYS_PER_YEAR) K))).
      unfold strikesOf.
      apply (in_map (fun i => Math_round (101 / 5) * 5 + IZR i * 5)).
      simpl. tauto.
Defined.

Lemma Math_round_10_5 : Math_round (10 / 5) = 2.
Proof. apply (Math_round_eq _ 2). lra. Qed.

(** The ladder of a spot of 10 reaches the strike 0. *)
Lemma strikeLadder_10_has_0 :
  exists K, In K (Server.strikeLadder 10) /\ K = 0.
Proof.
  exists (Math_round (10 / 5) * 5 + IZR (-2) * 5). split.
  - rewrite strikeLadder_eq.
    apply (in_map (fun i => Math_round (10 / 5) * 5 + IZR i * 5)).
    simpl. tauto.
  - rewrite Math_round_10_5. lra.
Qed.

(** C6, as stated, fails on a placeholder: with a single row of close 10
    the route quotes the strike 0, whose pricing throws; its call has
    [inTheMoney = false] although the spot 10 is above the strike 0. *)
Lemma placeholder_breaks_contract_invariant :
  exists warns volatility chain customDate,
    Server.optionsHandler (fun _ => None) 0 "SPY" None (Server.DbRows [10])
    = (warns, Server.Json "SPY" 10 volatility chain customDate)
    /\ ~ Spec.contract_invariant 10 chain.
Proof.
  destruct (optionsHandler_json (fun _ => None) 0%Z "SPY" None 10 [])
    as (warns & vol & cd & Heq).
  exists warns, vol. eexists. exists cd. split; [exact Heq |].
  intros Hinv.
  destruct strikeLadder_10_has_0 as (K & HK & HK0).
  destruct (Hinv 30%Z (Server.expiryDataFor 10 vol 0.035 (routeTime 30)
                        (Server.strikeLadder 10))) as [Hcalls _].
  { apply route_chain_in. split; [| reflexivity]. simpl. tauto. }
  destruct (Hcalls (fst (Server.priceStrike 10 vol 0.035 (routeTime 30) K)))
    as [Hflag _].
  { rewrite route_expiryDataFor_map. simpl.
    apply (in_map (fun K => fst (Server.priceStrike 10 vol 0.035 (routeTime 30) K))).
    exact HK. }
  assert (Hp : priced 10 K (routeTime 30) vol = false).
  { unfold priced. rewrite (Rleb_true K 0) by lra.
    rewrite andb_false_r. reflexivity. }
  rewrite (route_priceStrike_failed 10 vol 0.035 (routeTime 30) K Hp) in Hflag.
  simpl in Hflag. unfold Rgtb in Hflag. rewrite Rltb_true in Hflag by lra.
  discriminate.
Qed.

End ContractExamples.

(** ** The per-strike failure policy *)

Section FailurePolicy.
Import OptionCalc Aux.
Open Scope R_scope.





End FailurePolicy.

(** ** Historical volatility *)

Section VolatilityFacts.
Import OptionCalc Aux.
Open Scope R_scope.

(** The [period] argument is not used. *)
Lemma calculateHistoricalVolatility_period (prices : list R) (p q : Z) :
  calculateHistoricalVolatility prices p = calculateHistoricalVolatility prices q.
Proof. reflexivity. Qed.

Lemma calculateHistoricalVolatility_returns (prices : list R) (period : Z)
    (warns : list string) (r : R) (returns : list R) :
  (2 <= List.length prices)%nat ->
  daily_returns prices = (warns, r :: returns) ->
  calculateHistoricalVolatility prices period
  = (warns, sqrt (variance_of (r :: returns)) * sqrt DAYS_PER_YEAR).
Proof.
  intros Hlen Hret. unfold calculateHistoricalVolatility.
  apply Nat.ltb_ge in Hlen. rewrite Hlen, Hret. reflexivity.
Qed.

Lemma calculateHistoricalVolatility_no_returns (prices : list R) (period : Z)
    (warns : list string) :
  daily_returns prices = (warns, []) ->
  exists warns',
    calculateHistoricalVolatility prices period = (warns', 0.3) /\ warns' <> [].
Proof.
  intros Hret. unfold calculateHistoricalVolatility.
  destruct (List.length prices <? 2)%nat.
  - eexists. split; [reflexivity | discriminate].
  - rewrite Hret. simpl. eexists. split; [reflexivity |].
    destruct warns; discriminate.
Qed.

(** A return needs two adjacent positive closes. *)
Lemma returns_loop_usable (rest : list R) :
  forall prev,
    snd (returns_loop prev rest) <> [] ->
    (2 <= List.length (Spec.usable (prev :: rest)))%nat.
Proof.
  induction rest as [| p rest IH]; intros prev; simpl.
  - intros H. contradiction.
  - specialize (IH p).
    destruct (returns_loop p rest) as [warns returns]. simpl in IH.
    unfold Spec.usable in *. simpl in *.
    destruct (Rleb_spec p 0) as [Hp | Hp]; simpl.
    + intros H. specialize (IH H).
      rewrite (Rltb_false 0 p) in * by assumption.
      destruct (Rltb 0 prev); simpl; lia.
    + destruct (Rleb_spec prev 0) as [Hprev | Hprev]; simpl.
      * intros H. specialize (IH H).
        rewrite (Rltb_false 0 prev) by assumption. exact IH.
      * intros _. rewrite (Rltb_true 0 prev), (Rltb_true 0 p) by lra.
        simpl. lia.
Qed.

Lemma daily_returns_unusable (prices : list R) :
  (List.length (Spec.usable prices) < 2)%nat ->
  exists warns, daily_returns prices = (warns, []).
Proof.
  intros Hlt. destruct prices as [| p0 rest]; simpl.
  - eauto.
  - pose proof (returns_loop_usable rest p0) as H.
    destruct (returns_loop p0 rest) as [warns [| r returns]]; simpl in H.
    + eauto.
    + exfalso. assert (2 <= List.length (Spec.usable (p0 :: rest)))%nat.
      { apply H. discriminate. }
      lia.
Qed.

(** C4, amended: with fewer than 2 usable closes the estimator does not
    throw, it warns and itself returns 0.30; the route prices with that
    0.30 when it has at least two rows, and with its own default 0.25,
    nothing being logged, when it has a single row. *)
Theorem volatility_default_on_insufficient_data (closes : list R) :
  (List.length (Spec.usable closes) < 2)%nat ->
  (forall period,
     exists warns,
       calculateHistoricalVolatility closes period = (warns, 0.3)
       /\ warns <> [])
  /\ ((2 <= List.length closes)%nat ->
      exists warns, Server.volatilityOf closes = (warns, 0.3) /\ warns <> [])
  /\ ((List.length closes < 2)%nat -> Server.volatilityOf closes = ([], 0.25)).
Proof.
  intros Hlt.
  assert (Hcalc : forall period,
     exists warns,
       calculateHistoricalVolatility closes period = (warns, 0.3)
       /\ warns <> []).
  { intros period. destruct (daily_returns_unusable closes Hlt) as [w Hw].
    apply (calculateHistoricalVolatility_no_returns closes period w Hw). }
  split; [exact Hcalc |]. split.
  - intros Hlen. unfold Server.volatilityOf.
    assert (Hb : (1 <? List.length closes)%nat = true) by (apply Nat.ltb_lt; lia).
    rewrite Hb. destruct (Hcalc 30%Z) as (w & -> & Hne).
    exists w. split; [| exact Hne]. f_equal.
    rewrite Rmin_left by lra. apply Rmax_right. lra.
  - intros Hlen. unfold Server.volatilityOf.
    assert (Hb : (1 <? List.length closes)%nat = false) by (apply Nat.ltb_ge; lia).
    rewrite Hb. reflexivity.
Qed.

End VolatilityFacts.

Section VolatilityExamples.
Import OptionCalc Aux.
Open Scope R_scope.

Lemma usable_100_0 : Spec.usable [100; 0] = [100].
Proof.
  unfold Spec.usable. simpl.
  rewrite (Rltb_true 0 100), (Rltb_false 0 0) by lra. reflexivity.
Qed.

Lemma usable_100 : Spec.usable [100] = [100].
Proof.
  unfold Spec.usable. simpl. rewrite (Rltb_true 0 100) by lra. reflexivity.
Qed.

Lemma volatility_default_on_insufficient_data_witness :
  (exists warns,
     calculateHistoricalVolatility [100; 0] 30 = (warns, 0.3) /\ warns <> [])
  /\ (exists warns,
        Server.volatilityOf [100; 0] = (warns, 0.3) /\ warns <> [])
  /\ Server.volatilityOf [100] = ([], 0.25).
Proof.
  split; [| split].
  - apply (volatility_default_on_insufficient_data [100; 0]).
    rewrite usable_100_0. simpl. lia.
  - apply (volatility_default_on_insufficient_data [100; 0]).
    + rewrite usable_100_0. simpl. lia.
    + simpl. lia.
  - apply (volatility_default_on_insufficient_data [100]).
    + rewrite usable_100. simpl. lia.
    + simpl. lia.
Defined.

(** C4, as stated, fails for a single row: one usable close remains, the
    estimator is not called, nothing is logged, and the chain is priced
    with the volatility 0.25. *)
Lemma single_row_prices_with_025 :
  (List.length (Spec.usable [100%R]) < 2)%nat
  /\ exists chain,
       Server.optionsHandler (fun _ => None) 0 "SPY" None (Server.DbRows [100])
       = ([], Server.Json "SPY" 100 0.25 chain None)
       /\ 0.25 <> 0.3.
Proof.
  split.
  - rewrite usable_100. simpl. lia.
  - eexists. split; [reflexivity | lra].
Qed.

End VolatilityExamples.

(** ** The window of the historical volatility *)

Section WindowFacts.
Import OptionCalc Aux.
Open Scope R_scope.

Lemma returns_loop_ones (n : nat) :
  returns_loop 1 (repeat 1 n) = ([], repeat 0 n).
Proof.
  induction n as [| n IH]; simpl.
  - reflexivity.
  - rewrite IH, (Rleb_false 1 0) by lra. simpl.
    replace (1 / 1) with 1 by lra. rewrite ln_1. reflexivity.
Qed.

Lemma sum_zeros (n : nat) (a : R) :
  fold_left (fun sum val => sum + val) (repeat 0 n) a = a.
Proof.
  revert a. induction n as [| n IH]; intros a; simpl.
  - reflexivity.
  - rewrite IH. lra.
Qed.

Lemma sum_squares_zeros (m : R) (n : nat) (a : R) :
  fold_left (fun sum val => sum + (val - m) ^ 2) (repeat 0 n) a
  = a + INR n * m ^ 2.
Proof.
  revert a. induction n as [| n IH]; intros a.
  - simpl. lra.
  - rewrite S_INR. simpl repeat. simpl fold_left. rewrite IH. lra.
Qed.

Lemma variance_zeros (n : nat) : variance_of (repeat 0 (S n)) = 0.
Proof.
  assert (Hm : mean_of (repeat 0 (S n)) = 0).
  { unfold mean_of. rewrite sum_zeros. unfold Rdiv. apply Rmult_0_l. }
  unfold variance_of. rewrite Hm, sum_squares_zeros.
  unfold Rdiv. rewrite Rplus_0_l, pow_ne_zero by discriminate.
  rewrite Rmult_0_r. apply Rmult_0_l.
Qed.

Lemma variance_one_off (L : R) (n : nat) :
  L <> 0 -> 0 < variance_of (L :: repeat 0 (S n)).
Proof.
  intros HL. unfold variance_of.
  set (m := mean_of (L :: repeat 0 (S n))).
  cbn [fold_left]. rewrite sum_squares_zeros.
  assert (Hn : 0 < INR (List.length (L :: repeat 0 (S n)))).
  { apply lt_0_INR. simpl. lia. }
  apply Rdiv_lt_0_compat; [| exact Hn].
  assert (Hn' : 0 <= INR n) by apply pos_INR.
  clearbody m.
  assert (Hsq : 0 < (L - m) ^ 2 + m ^ 2).
  { simpl. pose proof (Rle_0_sqr (L - 2 * m)) as H2. unfold Rsqr in H2.
    assert (0 < L * L) by (destruct (Rdichotomy _ _ HL); nra).
    nra. }
  assert (Hm2 : 0 <= m ^ 2) by (simpl; nra).
  rewrite S_INR. nra.
Qed.

(** C3: the window is computed and not used.  With the default window of
    30 and 33 closes, the oldest close alone decides the result: 0 when
    it is 1 like the 32 closes after it, positive when it is 2. *)
Theorem historicalVolatility_ignores_window :
  (forall prices p q,
     calculateHistoricalVolatility prices p
     = calculateHistoricalVolatility prices q)
  /\ Spec.window_closes (2 :: repeat 1 32) 30
     = Spec.window_closes (1 :: repeat 1 32) 30
  /\ snd (calculateHistoricalVolatility (1 :: repeat 1 32) 30) = 0
  /\ 0 < snd (calculateHistoricalVolatility (2 :: repeat 1 32) 30).
Proof.
  split; [intros; reflexivity |]. split; [reflexivity |]. split.
  - rewrite (calculateHistoricalVolatility_returns _ _ [] 0 (repeat 0 31)).
    + cbn [snd]. change (0 :: repeat 0 31) with (repeat 0 32).
      rewrite variance_zeros, sqrt_0. apply Rmult_0_l.
    + simpl. lia.
    + apply (returns_loop_ones 32).
  - assert (HL : ln (1 / 2) < 0).
    { rewrite <- ln_1. apply ln_increasing; lra. }
    rewrite (calculateHistoricalVolatility_returns _ _ []
               (ln (1 / 2)) (repeat 0 31)).
    + cbn [snd]. apply Rmult_lt_0_compat.
      * apply sqrt_lt_R0, (variance_one_off (ln (1 / 2)) 30). lra.
      * apply sqrt_lt_R0. unfold DAYS_PER_YEAR. lra.
    + simpl. lia.
    + change (daily_returns (2 :: repeat 1 32))
        with (returns_loop 2 (1 :: repeat 1 31)).
      cbn [returns_loop]. fold (returns_loop 1 (repeat 1 31)).
      rewrite (returns_loop_ones 31), (Rleb_false 1 0), (Rleb_false 2 0) by lra.
      reflexivity.
Qed.

End WindowFacts.

(** * Further properties of the code *)

(** ** The normal distribution and the pricer *)

Section PricerMore.
Import OptionCalc Aux.
Open Scope R_scope.

(** X1: [normalCDF] takes its values in [[0,1]]. *)
Theorem normalCDF_range (x : R) : 0 <= normalCDF x <= 1.
Proof. exact (normalCDF_bounds x). Qed.

(** X2: away from 0 the values at [x] and [-x] add up to 1; at 0 the
    value is below one half, by less than [2e-7]. *)
Theorem normalCDF_symmetry :
  (forall x, x <> 0 -> normalCDF (- x) = 1 - normalCDF x)
  /\ normalCDF 0 < 1 / 2
  /\ 1 / 2 - normalCDF 0 < 2 / 10000000.
Proof.
  split.
  - intros x Hx. pose proof (normalCDF_reflect x Hx). lra.
  - rewrite normalCDF_0. split; lra.
Qed.

Lemma normalCDF_symmetry_witness : normalCDF (- 1) = 1 - normalCDF 1.
Proof. apply (proj1 normalCDF_symmetry 1). lra. Defined.

(** X3: [blackScholes] checks [S], [K], [T], [v] in this order and throws
    for the first that is not positive; once they pass it throws only for
    an unknown type at [T >= 0.00001], and returns otherwise. *)
Theorem blackScholes_errors (type : string) (S K T r v : R) :
  (S <= 0 -> blackScholes type S K T r v = Throw StockPriceNotPositive)
  /\ (0 < S -> K <= 0 ->
      blackScholes type S K T r v = Throw StrikePriceNotPositive)
  /\ (0 < S -> 0 < K -> T <= 0 ->
      blackScholes type S K T r v = Throw TimeNotPositive)
  /\ (0 < S -> 0 < K -> 0 < T -> v <= 0 ->
      blackScholes type S K T r v = Throw VolatilityNotPositive)
  /\ (0 < S -> 0 < K -> 0 < T -> 0 < v ->
      (0.00001 <= T /\ type <> "call"%string /\ type <> "put"%string ->
       blackScholes type S K T r v = Throw InvalidOptionType)
      /\ (T < 0.00001 \/ type = "call"%string \/ type = "put"%string ->
          exists p, blackScholes type S K T r v = Return p)).
Proof.
  unfold blackScholes. repeat split.
  - intros H. rewrite Rleb_true by assumption. reflexivity.
  - intros HS HK. rewrite Rleb_false, Rleb_true by assumption. reflexivity.
  - intros HS HK HT.
    rewrite !Rleb_false, Rleb_true by assumption. reflexivity.
  - intros HS HK HT Hv.
    rewrite !Rleb_false, Rleb_true by assumption. reflexivity.
  - intros (HT' & Hc & Hp).
    rewrite !Rleb_false, Rltb_false by assumption.
    destruct (String.eqb_spec type "call"); [contradiction |].
    destruct (String.eqb_spec type "put"); [contradiction | reflexivity].
  - rewrite !Rleb_false by assumption.
    intros [HT' | [-> | ->]].
    + rewrite Rltb_true by assumption.
      destruct (String.eqb type "call"); eauto.
    + destruct (Rltb T 0.00001); simpl; eauto.
    + destruct (Rltb T 0.00001); simpl; eauto.
Qed.

Lemma blackScholes_errors_witness :
  blackScholes "call" 0 (- 1) 0 0.035 0 = Throw StockPriceNotPositive
  /\ blackScholes "call" 100 (- 1) 0 0.035 0 = Throw StrikePriceNotPositive
  /\ blackScholes "call" 100 100 0 0.035 0 = Throw TimeNotPositive
  /\ blackScholes "call" 100 100 1 0.035 0 = Throw VolatilityNotPositive
  /\ blackScholes "both" 100 100 1 0.035 0.3 = Throw InvalidOptionType
  /\ exists p, blackScholes "put" 100 100 1 0.035 0.3 = Return p.
Proof.
  split; [| split; [| split; [| split; [| split]]]].
  - apply (blackScholes_errors "call" 0 (- 1) 0 0.035 0). lra.
  - apply (blackScholes_errors "call" 100 (- 1) 0 0.035 0); lra.
  - apply (blackScholes_errors "call" 100 100 0 0.035 0); lra.
  - apply (blackScholes_errors "call" 100 100 1 0.035 0); lra.
  - apply (blackScholes_errors "both" 100 100 1 0.035 0.3); try lra.
    split; [lra | split; discriminate].
  - apply (blackScholes_errors "put" 100 100 1 0.035 0.3); try lra.
    right. right. reflexivity.
Defined.

(** X4: a returned price is never above the spot for a call and, for a
    non-negative rate, never above the strike for a put; below the
    threshold it is not negative. *)
Theorem blackScholes_price_bounds (S K T r v price : R) :
  (blackScholes "call" S K T r v = Return price -> price <= S)
  /\ (0 <= r -> blackScholes "put" S K T r v = Return price -> price <= K)
  /\ (forall type,
        T < 0.00001 -> blackScholes type S K T r v = Return price ->
        0 <= price).
Proof.
  assert (Hval : forall type p,
            blackScholes type S K T r v = Return p ->
            0 < S /\ 0 < K /\ 0 < T /\ 0 < v).
  { intros type p. unfold blackScholes.
    destruct (Rleb_spec S 0); [discriminate |].
    destruct (Rleb_spec K 0); [discriminate |].
    destruct (Rleb_spec T 0); [discriminate |].
    destruct (Rleb_spec v 0); [discriminate |].
    intros _. lra. }
  split; [| split].
  - intros H. destruct (Hval _ _ H) as (HS & HK & HT & Hv).
    rewrite blackScholes_valid in H by assumption.
    destruct (Rltb T 0.00001); simpl in H; injection H as <-.
    + unfold Rmax. destruct (Rle_dec 0 (S - K)); lra.
    + pose proof (normalCDF_bounds (d1_of S K T r v)) as H1.
      pose proof (normalCDF_bounds (d2_of S K T r v)) as H2.
      pose proof (exp_pos (- r * T)) as He.
      assert (0 <= K * exp (- r * T) * normalCDF (d2_of S K T r v)).
      { apply Rmult_le_pos; [apply Rmult_le_pos |]; lra. }
      nra.
  - intros Hr H. destruct (Hval _ _ H) as (HS & HK & HT & Hv).
    rewrite blackScholes_valid in H by assumption.
    destruct (Rltb T 0.00001); simpl in H; injection H as <-.
    + unfold Rmax. destruct (Rle_dec 0 (K - S)); lra.
    + pose proof (normalCDF_bounds (- d1_of S K T r v)) as H1.
      pose proof (normalCDF_bounds (- d2_of S K T r v)) as H2.
      assert (He : 0 < exp (- r * T) <= 1).
      { split; [apply exp_pos | apply exp_nonpos_le_1; nra]. }
      assert (0 <= S * normalCDF (- d1_of S K T r v)) by (apply Rmult_le_pos; lra).
      assert (K * exp (- r * T) * normalCDF (- d2_of S K T r v) <= K).
      { assert (K * exp (- r * T) <= K) by nra.
        assert (0 <= K * exp (- r * T)) by nra. nra. }
      lra.
  - intros type HT' H. destruct (Hval _ _ H) as (HS & HK & HT & Hv).
    rewrite blackScholes_valid in H by assumption.
    rewrite Rltb_true in H by assumption.
    destruct (String.eqb type "call"); injection H as <-; apply Rmax_l.
Qed.

Lemma blackScholes_price_bounds_witness :
  Rmax 0 (101 - 100) <= 101 /\ Rmax 0 (100 - 101) <= 100.
Proof.
  split.
  - apply (blackScholes_price_bounds 101 100 (1 / 1000000) 0.035 0.3).
    rewrite blackScholes_valid, Rltb_true by lra. reflexivity.
  - apply (blackScholes_price_bounds 101 100 (1 / 1000000) 0.035 0.3);
      [lra |].
    rewrite blackScholes_valid, Rltb_true by lra. reflexivity.
Defined.

End PricerMore.

(** ** Implied volatility *)

Section ImpliedVolatility.
Import OptionCalc Aux.
Open Scope R_scope.

(** What [blackScholes] throws does not depend on a positive volatility. *)
Lemma blackScholes_throw_volatility (type : string) (S K T r v v' : R)
    (e : PricingError) :
  0 < v -> 0 < v' ->
  blackScholes type S K T r v = Throw e ->
  blackScholes type S K T r v' = Throw e.
Proof.
  intros Hv Hv'. unfold blackScholes.
  destruct (Rleb S 0); [trivial |].
  destruct (Rleb K 0); [trivial |].
  destruct (Rleb T 0); [trivial |].
  rewrite !(Rleb_false _ 0) by assumption.
  destruct (Rltb T 0.00001).
  - destruct (String.eqb type "call"); discriminate.
  - destruct (String.eqb type "call"); [discriminate |].
    destruct (String.eqb type "put"); [discriminate | trivial].
Qed.

(** In exact arithmetic the loop keeps [v] positive, so that a later call of
    [blackScholes] throws only what it throws at the current [v]. *)
Lemma impliedVolatility_loop_inv (iterations : nat) (type : string)
    (marketPrice S K T r : R) :
  forall v, 0 < v ->
    match impliedVolatility_loop iterations type marketPrice S K T r v with
    | Return v' => 0 < v'
    | Throw e => blackScholes type S K T r v = Throw e
    end.
Proof.
  induction iterations as [| n IH]; intros v Hv; simpl.
  - exact Hv.
  - destruct (blackScholes type S K T r v) as [price | e] eqn:Hbs;
      [| reflexivity].
    destruct (Rltb (Rabs (marketPrice - price)) 0.00001); [exact Hv |].
    set (v1 := v + (marketPrice - price) /
                   (S * sqrt T * 0.3989423 *
                    exp (- ((ln (S / K) + (r + v * v / 2) * T) / (v * sqrt T)) *
                         ((ln (S / K) + (r + v * v / 2) * T) / (v * sqrt T)) / 2))).
    set (v2 := if Rleb v1 0 then 0.001 else v1).
    assert (Hv2 : 0 < v2).
    { unfold v2. destruct (Rleb_spec v1 0); lra. }
    specialize (IH v2 Hv2).
    destruct (impliedVolatility_loop n type marketPrice S K T r v2) as [v' | e].
    + exact IH.
    + apply (blackScholes_throw_volatility _ _ _ _ _ v2 v) in IH;
        [congruence | assumption | assumption].
Qed.

(** One iteration of the loop. *)
Lemma impliedVolatility_loop_step (n : nat) (type : string)
    (marketPrice S K T r v : R) :
  impliedVolatility_loop (Datatypes.S n) type marketPrice S K T r v
  = match blackScholes type S K T r v with
    | Throw e => Throw e
    | Return price =>
      if Rltb (Rabs (marketPrice - price)) 0.00001 then Return v
      else
        let d1 := (ln (S / K) + (r + v * v / 2) * T) / (v * sqrt T) in
        let vega := S * sqrt T * 0.3989423 * exp (- d1 * d1 / 2) in
        let v := v + (marketPrice - price) / vega in
        let v := if Rleb v 0 then 0.001 else v in
        impliedVolatility_loop n type marketPrice S K T r v
    end.
Proof. reflexivity. Qed.

(** X5: [impliedVolatility] throws exactly what [blackScholes] throws at
    the initial guess 0.3, so that no Newton step makes it throw; and the
    guess itself is returned when it prices within [0.00001] of the market
    price. *)
Theorem impliedVolatility_result (type : string) (marketPrice S K T r : R) :
  (forall e,
     impliedVolatility type marketPrice S K T r = Throw e
     <-> blackScholes type S K T r 0.3 = Throw e)
  /\ (forall price,
        blackScholes type S K T r 0.3 = Return price ->
        Rabs (marketPrice - price) < 0.00001 ->
        impliedVolatility type marketPrice S K T r = Return 0.3).
Proof.
  unfold impliedVolatility.
  pose proof (impliedVolatility_loop_inv 100 type marketPrice S K T r 0.3
                ltac:(lra)) as Hinv.
  split.
  - intros e. split.
    + intros H. rewrite H in Hinv. exact Hinv.
    + intros H. rewrite impliedVolatility_loop_step, H. reflexivity.
  - intros price Hbs Hclose.
    rewrite impliedVolatility_loop_step, Hbs, Rltb_true by assumption.
    reflexivity.
Qed.

Lemma impliedVolatility_result_witness :
  impliedVolatility "call" 1 101 100 (1 / 1000000) 0.035 = Return 0.3
  /\ impliedVolatility "both" 1 101 100 1 0.035 = Throw InvalidOptionType.
Proof.
  split.
  - apply (proj2 (impliedVolatility_result "call" 1 101 100
                    (1 / 1000000) 0.035) (Rmax 0 (101 - 100))).
    + rewrite blackScholes_valid, Rltb_true by lra. reflexivity.
    + rewrite Rmax_right by lra.
      replace (1 - (101 - 100)) with 0 by lra. rewrite Rabs_R0. lra.
  - apply (proj1 (impliedVolatility_result "both" 1 101 100 1 0.035)).
    rewrite blackScholes_valid, Rltb_false by lra. reflexivity.
Defined.

End ImpliedVolatility.

(** ** Historical volatility: invariances *)

Section VolatilityMore.
Import OptionCalc Aux.
Open Scope R_scope.

Lemma returns_loop_scale (c : R) (rest : list R) :
  0 < c ->
  forall prev,
    returns_loop (c * prev) (map (Rmult c) rest) = returns_loop prev rest.
Proof.
  intros Hc. induction rest as [| p rest IH]; intros prev; simpl.
  - reflexivity.
  - rewrite IH. destruct (returns_loop p rest) as [warns returns].
    destruct (Rleb_spec p 0) as [Hp | Hp].
    + rewrite (Rleb_true (c * p) 0) by nra. reflexivity.
    + rewrite (Rleb_false (c * p) 0) by nra.
      destruct (Rleb_spec prev 0) as [Hq | Hq].
      * rewrite (Rleb_true (c * prev) 0) by nra. reflexivity.
      * rewrite (Rleb_false (c * prev) 0) by nra. simpl.
        replace (c * p / (c * prev)) with (p / prev) by (field; lra).
        reflexivity.
Qed.

(** X6: multiplying every price by the same positive factor changes
    neither the volatility nor the warnings. *)
Theorem calculateHistoricalVolatility_scale (c : R) (prices : list R)
    (period : Z) :
  0 < c ->
  calculateHistoricalVolatility (map (Rmult c) prices) period
  = calculateHistoricalVolatility prices period.
Proof.
  intros Hc. unfold calculateHistoricalVolatility.
  rewrite length_map.
  destruct (List.length prices <? 2)%nat; [reflexivity |].
  assert (Hret : daily_returns (map (Rmult c) prices) = daily_returns prices).
  { destruct prices as [| p0 rest]; [reflexivity |].
    simpl. apply returns_loop_scale, Hc. }
  rewrite Hret. reflexivity.
Qed.

Lemma calculateHistoricalVolatility_scale_witness :
  calculateHistoricalVolatility (map (Rmult 100) [1; 2; 0; 3]) 30
  = calculateHistoricalVolatility [1; 2; 0; 3] 30.
Proof. apply (calculateHistoricalVolatility_scale 100). lra. Defined.

(** *** Sums *)

Lemma fold_left_Rsum {A : Type} (f : A -> R) (l : list A) :
  forall a, fold_left (fun sum val => sum + f val) l a = a + Rsum (map f l).
Proof.
  induction l as [| x l IH]; intros a; simpl.
  - lra.
  - rewrite IH. lra.
Qed.

Lemma Rsum_app (l1 l2 : list R) : Rsum (l1 ++ l2) = Rsum l1 + Rsum l2.
Proof.
  induction l1 as [| x l1 IH]; simpl.
  - lra.
  - rewrite IH. lra.
Qed.

Lemma Rsum_rev (l : list R) : Rsum (rev l) = Rsum l.
Proof.
  induction l as [| x l IH]; simpl.
  - reflexivity.
  - rewrite Rsum_app, IH. simpl. lra.
Qed.

Lemma Rsum_opp (l : list R) : Rsum (map Ropp l) = - Rsum l.
Proof.
  induction l as [| x l IH]; simpl.
  - lra.
  - rewrite IH. lra.
Qed.

Lemma Rsum_nonneg (l : list R) : Forall (fun x => 0 <= x) l -> 0 <= Rsum l.
Proof.
  induction 1 as [| x l Hx _ IH]; simpl; lra.
Qed.

Lemma mean_of_Rsum (l : list R) : mean_of l = Rsum l / INR (List.length l).
Proof.
  unfold mean_of. rewrite (fold_left_Rsum (fun v => v) l 0), map_id.
  f_equal. lra.
Qed.

Lemma variance_of_Rsum (l : list R) :
  variance_of l
  = Rsum (map (fun v => (v - mean_of l) ^ 2) l) / INR (List.length l).
Proof.
  unfold variance_of.
  rewrite (fold_left_Rsum (fun v => (v - mean_of l) ^ 2) l 0).
  f_equal. lra.
Qed.

Lemma variance_of_nonneg (l : list R) : 0 <= variance_of l.
Proof.
  rewrite variance_of_Rsum.
  assert (Hs : 0 <= Rsum (map (fun v => (v - mean_of l) ^ 2) l)).
  { apply Rsum_nonneg, Forall_forall. intros x Hx.
    apply in_map_iff in Hx as (v & <- & _). apply pow2_ge_0. }
  destruct l as [| x l].
  - simpl. unfold Rdiv. rewrite Rinv_0. lra.
  - apply Rmult_le_pos; [exact Hs |].
    left. apply Rinv_0_lt_compat, lt_0_INR. simpl. lia.
Qed.

(** The variance of the opposite returns in the opposite order. *)
Lemma variance_of_opp_rev (l : list R) :
  variance_of (map Ropp (rev l)) = variance_of l.
Proof.
  assert (Hm : mean_of (map Ropp (rev l)) = - mean_of l).
  { rewrite !mean_of_Rsum, length_map, length_rev, Rsum_opp, Rsum_rev.
    unfold Rdiv. lra. }
  rewrite !variance_of_Rsum, Hm, length_map, length_rev. f_equal.
  rewrite map_map, map_rev, Rsum_rev. f_equal.
  apply map_ext. intros v. ring.
Qed.

End VolatilityMore.

Section VolatilityOrder.
Import OptionCalc Aux.
Open Scope R_scope.

Lemma returns_loop_cons (prev p : R) (rest : list R) :
  snd (returns_loop prev (p :: rest))
  = pair_return prev p ++ snd (returns_loop p rest).
Proof.
  simpl. unfold pair_return.
  destruct (returns_loop p rest) as [warns returns].
  destruct (Rleb p 0 || Rleb prev 0); reflexivity.
Qed.

Lemma returns_loop_snoc (m : list R) (z x : R) :
  forall prev,
    snd (returns_loop prev ((m ++ [z]) ++ [x]))
    = snd (returns_loop prev (m ++ [z])) ++ pair_return z x.
Proof.
  induction m as [| a m IH]; intros prev.
  - cbn [app]. rewrite !returns_loop_cons. simpl.
    rewrite !app_nil_r. reflexivity.
  - cbn [app]. rewrite !returns_loop_cons, IH, app_assoc. reflexivity.
Qed.

Lemma pair_return_swap (a b : R) :
  pair_return b a = map Ropp (pair_return a b).
Proof.
  unfold pair_return. rewrite (orb_comm (Rleb a 0)).
  destruct (Rleb_spec b 0); [reflexivity |].
  destruct (Rleb_spec a 0); [reflexivity |]. simpl.
  unfold Rdiv. rewrite !ln_mult, !ln_Rinv; try lra.
  - f_equal. lra.
  - apply Rinv_0_lt_compat. lra.
  - apply Rinv_0_lt_compat. lra.
Qed.

Lemma pair_return_rev (a b : R) : rev (pair_return a b) = pair_return a b.
Proof. unfold pair_return. destruct (Rleb b 0 || Rleb a 0); reflexivity. Qed.

(** The returns of the reversed series are the opposite returns in the
    opposite order. *)
Lemma daily_returns_rev (l : list R) :
  forall y,
    snd (daily_returns (rev (y :: l)))
    = map Ropp (rev (snd (daily_returns (y :: l)))).
Proof.
  induction l as [| z l IH]; intros y.
  - reflexivity.
  - specialize (IH z).
    change (rev (y :: z :: l)) with ((rev l ++ [z]) ++ [y]).
    change (rev (z :: l)) with (rev l ++ [z]) in IH.
    assert (Hsnoc : snd (daily_returns ((rev l ++ [z]) ++ [y]))
                    = snd (daily_returns (rev l ++ [z])) ++ pair_return z y).
    { destruct (rev l) as [| q0 qs].
      - simpl. unfold pair_return.
        destruct (Rleb y 0 || Rleb z 0); reflexivity.
      - apply returns_loop_snoc. }
    rewrite Hsnoc, IH.
    change (snd (daily_returns (y :: z :: l)))
      with (snd (returns_loop y (z :: l))).
    rewrite returns_loop_cons.
    change (snd (returns_loop z l)) with (snd (daily_returns (z :: l))).
    rewrite rev_app_distr, map_app, pair_return_rev, pair_return_swap.
    reflexivity.
Qed.

(** X7: the volatility of a series does not depend on the direction in
    which the closes are listed, oldest first or newest first. *)
Theorem calculateHistoricalVolatility_rev (prices : list R) (period : Z) :
  snd (calculateHistoricalVolatility (rev prices) period)
  = snd (calculateHistoricalVolatility prices period).
Proof.
  destruct prices as [| y l]; [reflexivity |].
  pose proof (daily_returns_rev l y) as Hrev.
  destruct (daily_returns (y :: l)) as [w rs] eqn:Hd.
  destruct (daily_returns (rev (y :: l))) as [w' rs'] eqn:Hd'.
  cbn [snd] in Hrev. subst rs'.
  destruct l as [| z l].
  { reflexivity. }
  assert (Hlen : (2 <= List.length (y :: z :: l))%nat) by (simpl; lia).
  assert (Hlen' : (2 <= List.length (rev (y :: z :: l)))%nat)
    by (rewrite length_rev; exact Hlen).
  destruct rs as [| r rs].
  - destruct (calculateHistoricalVolatility_no_returns _ period _ Hd)
      as (w1 & -> & _).
    destruct (calculateHistoricalVolatility_no_returns _ period _ Hd')
      as (w2 & -> & _).
    reflexivity.
  - rewrite (calculateHistoricalVolatility_returns _ period w r rs Hlen Hd).
    destruct (map Ropp (rev (r :: rs))) as [| r' rs'] eqn:Hm.
    { apply (f_equal (@List.length R)) in Hm.
      rewrite length_map, length_rev in Hm. discriminate. }
    rewrite (calculateHistoricalVolatility_returns _ period w' r' rs' Hlen' Hd').
    cbn [snd]. rewrite <- Hm, variance_of_opp_rev. reflexivity.
Qed.

Lemma Rsum_constant (r : R) (l : list R) :
  Forall (fun v => v = r) l -> Rsum l = INR (List.length l) * r.
Proof.
  induction 1 as [| x l Hx _ IH].
  - simpl. lra.
  - cbn [List.length]. rewrite S_INR. simpl. rewrite IH, Hx. lra.
Qed.

Lemma variance_of_constant (r : R) (l : list R) :
  l <> [] -> Forall (fun v => v = r) l -> variance_of l = 0.
Proof.
  intros Hne Hall.
  assert (Hn : 0 < INR (List.length l)).
  { apply lt_0_INR. destruct l; [contradiction | simpl; lia]. }
  assert (Hm : mean_of l = r).
  { rewrite mean_of_Rsum, (Rsum_constant r l Hall). field. lra. }
  rewrite variance_of_Rsum, Hm.
  rewrite (Rsum_constant 0).
  - unfold Rdiv. rewrite Rmult_0_r. apply Rmult_0_l.
  - apply Forall_forall. intros x Hx.
    apply in_map_iff in Hx as (v & <- & Hv).
    rewrite Forall_forall in Hall. rewrite (Hall v Hv). ring.
Qed.

(** X8: the volatility returned is never negative, and it is 0 whenever
    all the returns computed are equal, as for a series of exactly two
    positive closes. *)
Theorem calculateHistoricalVolatility_zero (prices : list R) (period : Z) :
  0 <= snd (calculateHistoricalVolatility prices period)
  /\ (forall warns r returns,
        (2 <= List.length prices)%nat ->
        daily_returns prices = (warns, r :: returns) ->
        Forall (fun v => v = r) returns ->
        calculateHistoricalVolatility prices period = (warns, 0)).
Proof.
  split.
  - unfold calculateHistoricalVolatility.
    destruct (List.length prices <? 2)%nat; [simpl; lra |].
    destruct (daily_returns prices) as [w rs].
    destruct (List.length rs =? 0)%nat; [simpl; lra |].
    cbn [snd]. apply Rmult_le_pos; apply sqrt_pos.
  - intros warns r returns Hlen Hd Hall.
    rewrite (calculateHistoricalVolatility_returns _ period warns r returns
               Hlen Hd).
    rewrite (variance_of_constant r); [| discriminate | constructor; auto].
    rewrite sqrt_0, Rmult_0_l. reflexivity.
Qed.

Lemma calculateHistoricalVolatility_zero_witness :
  calculateHistoricalVolatility [100; 110] 30 = ([], 0).
Proof.
  apply (proj2 (calculateHistoricalVolatility_zero [100; 110] 30) []
           (ln (110 / 100)) []).
  - simpl. lia.
  - simpl. rewrite (Rleb_false 110 0), (Rleb_false 100 0) by lra. reflexivity.
  - constructor.
Defined.

End VolatilityOrder.

(** ** The keys of an object *)

Section ObjectKeys.
Context {K V : Type} (eqb : K -> K -> bool).
Hypothesis eqb_spec : forall a b, reflect (a = b) (eqb a b).

Lemma obj_set_keys (key : K) (v : V) (o : list (K * V)) :
  map fst (obj_set eqb key v o) = map fst o
  \/ (~ In key (map fst o) /\ map fst (obj_set eqb key v o) = map fst o ++ [key]).
Proof.
  induction o as [| [k w] o IH]; simpl.
  - right. split; [tauto | reflexivity].
  - destruct (eqb_spec k key) as [-> | Hne]; simpl.
    + left. reflexivity.
    + destruct IH as [-> | [Hnin ->]].
      * left. reflexivity.
      * right. split; [| reflexivity]. intros [H | H]; contradiction.
Qed.

Lemma obj_set_NoDup (key : K) (v : V) (o : list (K * V)) :
  NoDup (map fst o) -> NoDup (map fst (obj_set eqb key v o)).
Proof.
  intros Hnd. destruct (obj_set_keys key v o) as [-> | [Hnin ->]].
  - exact Hnd.
  - apply NoDup_app; [exact Hnd | repeat constructor; intros [] |].
    intros a Ha [<- | []]. exact (Hnin Ha).
Qed.

Lemma obj_fold_NoDup (f : K -> V) (keys : list K) :
  forall o,
    NoDup (map fst o) ->
    NoDup (map fst (fold_left (fun o key => obj_set eqb key (f key) o) keys o)).
Proof.
  induction keys as [| key keys IH]; intros o Hnd; simpl.
  - exact Hnd.
  - apply IH, obj_set_NoDup, Hnd.
Qed.

End ObjectKeys.

(** ** The chain of [generateOptionChain] *)

Section ChainMore.
Import OptionCalc Aux.
Open Scope R_scope.

Lemma calc_priceStrike_strike (S v r T K : R) :
  strike (fst (priceStrike S v r T K)) = K
  /\ strike (snd (priceStrike S v r T K)) = K.
Proof. apply (calc_contract_pair S v r T K). Qed.

Lemma calc_expiryDataFor_strikes (S v r T : R) (strikes : list R) :
  map strike (calls (expiryDataFor S v r T strikes)) = strikes
  /\ map strike (puts (expiryDataFor S v r T strikes)) = strikes.
Proof.
  rewrite calc_expiryDataFor_map. cbn [calls puts]. rewrite !map_map.
  split; rewrite <- (map_id strikes) at 2; apply map_ext; intros K;
    apply calc_priceStrike_strike.
Qed.

(** X9: [generateOptionChain] throws exactly for a non-positive current
    price; otherwise the chain has one entry per distinct day count given,
    and every entry lists a call and a put for each strike of the ladder,
    in the order of the ladder. *)
Theorem generateOptionChain_shape (S v r : R) (daysToExpiration : list R)
    (count : Z) (step : R) :
  (S <= 0 ->
   generateOptionChain S v r daysToExpiration count step
   = Throw CurrentPriceNotPositive)
  /\ (0 < S ->
      exists chain,
        generateOptionChain S v r daysToExpiration count step = Return chain
        /\ NoDup (map fst chain)
        /\ (forall days, In days (map fst chain) <-> In days daysToExpiration)
        /\ (forall days expiryData,
              In (days, expiryData) chain ->
              map strike (calls expiryData) = strikesOf S count step
              /\ map strike (puts expiryData) = strikesOf S count step)).
Proof.
  split.
  - intros HS. rewrite generateOptionChain_eq, Rleb_true by assumption.
    reflexivity.
  - intros HS.
    destruct (generateOptionChain S v r daysToExpiration count step)
      as [chain | e] eqn:Hgen.
    2:{ rewrite generateOptionChain_eq, Rleb_false in Hgen by assumption.
        discriminate. }
    exists chain. split; [reflexivity |].
    pose proof (calc_chain_in _ _ _ _ _ _ _ Hgen) as [_ Hin].
    split; [| split].
    + rewrite generateOptionChain_eq, Rleb_false in Hgen by assumption.
      injection Hgen as <-.
      apply (obj_fold_NoDup Reqb Reqb_spec
               (fun days =>
                  expiryDataFor S (chainVolatility v) r (days / DAYS_PER_YEAR)
                    (strikesOf S count step))).
      constructor.
    + intros days. rewrite in_map_iff. split.
      * intros ([d ed] & <- & Hd). apply Hin in Hd. tauto.
      * intros Hd. eexists (days, _). split; [reflexivity |].
        apply Hin. split; [exact Hd | reflexivity].
    + intros days expiryData Hd. apply Hin in Hd as [_ ->].
      apply calc_expiryDataFor_strikes.
Qed.

Lemma generateOptionChain_shape_witness :
  generateOptionChain 0 0.3 0.035 [30] 10 5 = Throw CurrentPriceNotPositive
  /\ exists chain,
       generateOptionChain 101 0.3 0.035 [30; 30] 10 5 = Return chain
       /\ NoDup (map fst chain)
       /\ (forall days, In days (map fst chain) <-> In days [30; 30])
       /\ (forall days expiryData,
             In (days, expiryData) chain ->
             map strike (calls expiryData) = strikesOf 101 10 5
             /\ map strike (puts expiryData) = strikesOf 101 10 5).
Proof.
  split.
  - apply (generateOptionChain_shape 0 0.3 0.035 [30] 10 5). lra.
  - apply (generateOptionChain_shape 101 0.3 0.035 [30; 30] 10 5). lra.
Defined.

(** X10: for a day count that is not positive the time to expiry is not
    positive, every pricing throws, and the entry holds placeholders only
    (the route prices a day count of 0 with one day instead). *)
Theorem generateOptionChain_expired (S v r : R) (daysToExpiration : list R)
    (count : Z) (step : R) (chain : list (R * ExpiryData)) (days : R)
    (expiryData : ExpiryData) :
  generateOptionChain S v r daysToExpiration count step = Return chain ->
  In (days, expiryData) chain ->
  days <= 0 ->
  calls expiryData = map placeholder (strikesOf S count step)
  /\ puts expiryData = map placeholder (strikesOf S count step).
Proof.
  intros Hgen Hin Hdays.
  apply calc_chain_in in Hgen as [_ Hchain].
  apply Hchain in Hin as [_ ->].
  rewrite calc_expiryDataFor_map. cbn [calls puts].
  assert (Hp : forall K,
            priceStrike S (chainVolatility v) r (days / DAYS_PER_YEAR) K
            = (placeholder K, placeholder K)).
  { intros K. apply calc_priceStrike_failed. unfold priced.
    rewrite (Rleb_true (days / DAYS_PER_YEAR) 0).
    - rewrite andb_false_r. reflexivity.
    - unfold DAYS_PER_YEAR. lra. }
  split; apply map_ext; intros K; rewrite Hp; reflexivity.
Qed.

Lemma generateOptionChain_expired_witness :
  let expiryData :=
    expiryDataFor 101 (chainVolatility 0.3) 0.035 (0 / DAYS_PER_YEAR)
      (strikesOf 101 10 5) in
  calls expiryData = map placeholder (strikesOf 101 10 5)
  /\ puts expiryData = map placeholder (strikesOf 101 10 5).
Proof.
  intros expiryData.
  apply (generateOptionChain_expired 101 0.3 0.035 [0] 10 5
           [(0, expiryData)] 0 expiryData).
  - rewrite generateOptionChain_eq, Rleb_false by lra. reflexivity.
  - left. reflexivity.
  - lra.
Defined.

Lemma chainVolatility_cases (v : R) :
  (v <= 0 -> chainVolatility v = 0.3)
  /\ (0 < v <= 2 -> chainVolatility v = v)
  /\ (2 < v -> chainVolatility v = 2).
Proof.
  unfold chainVolatility, isFinite. rewrite orb_false_r. repeat split.
  - intros H. rewrite Rleb_true, Rltb_false by lra. reflexivity.
  - intros H. rewrite Rleb_false, Rltb_false by lra. reflexivity.
  - intros H. rewrite Rleb_false, Rltb_true by lra. reflexivity.
Qed.

(** X11: a volatility that is not positive gives the chain of 0.3, and a
    finite volatility above 2 (one that passes the code's [isFinite] test)
    gives the chain of 2. *)
Theorem generateOptionChain_volatility (S v r : R) (daysToExpiration : list R)
    (count : Z) (step : R) :
  (v <= 0 ->
   generateOptionChain S v r daysToExpiration count step
   = generateOptionChain S 0.3 r daysToExpiration count step)
  /\ (isFinite v = true -> 2 < v ->
      generateOptionChain S v r daysToExpiration count step
      = generateOptionChain S 2 r daysToExpiration count step).
Proof.
  rewrite !generateOptionChain_eq.
  destruct (chainVolatility_cases v) as (H1 & _ & H3).
  destruct (chainVolatility_cases 0.3) as (_ & H03 & _).
  destruct (chainVolatility_cases 2) as (_ & H2 & _).
  split.
  - intros H. rewrite (H1 H), H03 by lra. reflexivity.
  - intros _ H. rewrite (H3 H), H2 by lra. reflexivity.
Qed.

Lemma generateOptionChain_volatility_witness :
  generateOptionChain 101 (- 1) 0.035 [30] 10 5
  = generateOptionChain 101 0.3 0.035 [30] 10 5
  /\ generateOptionChain 101 5 0.035 [30] 10 5
     = generateOptionChain 101 2 0.035 [30] 10 5.
Proof.
  split.
  - apply (proj1 (generateOptionChain_volatility 101 (- 1) 0.035 [30] 10 5)).
    lra.
  - apply (proj2 (generateOptionChain_volatility 101 5 0.035 [30] 10 5)).
    + reflexivity.
    + lra.
Defined.

End ChainMore.

(** ** Calls and puts side by side *)

Section Pairing.
Import OptionCalc Aux.
Open Scope R_scope.

Lemma Forall2_map_both {A B C : Type} (P : B -> C -> Prop) (f : A -> B)
    (g : A -> C) (l : list A) :
  (forall x, P (f x) (g x)) -> Forall2 P (map f l) (map g l).
Proof.
  intros H. induction l as [| x l IH]; simpl; constructor; auto.
Qed.

Lemma never_both_in_the_money (S K : R) : Rgtb S K && Rltb S K = false.
Proof.
  unfold Rgtb. destruct (Rltb_spec K S), (Rltb_spec S K); try reflexivity.
  lra.
Qed.

Lemma calc_pair_aligned (S v r T K : R) :
  let call := fst (priceStrike S v r T K) in
  let put := snd (priceStrike S v r T K) in
  strike call = strike put
  /\ gamma call = gamma put
  /\ vega call = vega put
  /\ (delta put = delta call - 1 \/ (delta call = 0 /\ delta put = 0))
  /\ inTheMoney call && inTheMoney put = false.
Proof.
  destruct (priced S K T v) eqn:Hp.
  - destruct (calc_priceStrike_priced S v r T K Hp)
      as (c & p & g & ct & pt & vg & cr & pr & _ & _ & ->).
    simpl. repeat split; auto. apply never_both_in_the_money.
  - rewrite (calc_priceStrike_failed S v r T K Hp). simpl.
    repeat split; auto.
Qed.

Lemma route_pair_aligned (S v r T K : R) :
  let call := fst (Server.priceStrike S v r T K) in
  let put := snd (Server.priceStrike S v r T K) in
  Server.strike call = Server.strike put
  /\ Server.gamma call = Server.gamma put
  /\ Server.vega call = Server.vega put
  /\ (Server.delta put = Server.delta call - 1
      \/ (Server.delta call = 0 /\ Server.delta put = 0))
  /\ Server.inTheMoney call && Server.inTheMoney put = false.
Proof.
  destruct (priced S K T v) eqn:Hp.
  - destruct (route_priceStrike_priced S v r T K Hp)
      as (c & p & g & ct & pt & vg & _ & _ & ->).
    simpl. repeat split; auto. apply never_both_in_the_money.
  - rewrite (route_priceStrike_failed S v r T K Hp). simpl.
    repeat split; auto.
Qed.

(** X12: in every entry of a chain the calls and the puts go by pairs, in
    the same order: both of a pair have the same strike, gamma and vega,
    the delta of the put is that of the call minus 1 (both are 0 in a
    placeholder), and they are never both in the money.  This holds for
    the chain sent by the route and for that of [generateOptionChain]. *)
Theorem calls_and_puts_paired :
  (forall parseDate today ticker requestedDate db warns ticker' spot
          volatility chain customDate days expiryData,
     Server.optionsHandler parseDate today ticker requestedDate db
     = (warns, Server.Json ticker' spot volatility chain customDate) ->
     In (days, expiryData) chain ->
     Forall2
       (fun call put =>
          Server.strike call = Server.strike put
          /\ Server.gamma call = Server.gamma put
          /\ Server.vega call = Server.vega put
          /\ (Server.delta put = Server.delta call - 1
              \/ (Server.delta call = 0 /\ Server.delta put = 0))
          /\ Server.inTheMoney call && Server.inTheMoney put = false)
       (Server.calls expiryData) (Server.puts expiryData))
  /\ (forall S v r daysToExpiration count step chain days expiryData,
        generateOptionChain S v r daysToExpiration count step = Return chain ->
        In (days, expiryData) chain ->
        Forall2
          (fun call put =>
             strike call = strike put
             /\ gamma call = gamma put
             /\ vega call = vega put
             /\ (delta put = delta call - 1
                 \/ (delta call = 0 /\ delta put = 0))
             /\ inTheMoney call && inTheMoney put = false)
          (calls expiryData) (puts expiryData)).
Proof.
  split.
  - intros parseDate today ticker requestedDate db warns ticker' spot
      volatility chain customDate days expiryData Hresp Hin.
    destruct db as [message | [| row0 rows]]; try discriminate.
    destruct (optionsHandler_json parseDate today ticker requestedDate row0 rows)
      as (w & vol & cd & Heq).
    rewrite Heq in Hresp. injection Hresp as _ _ <- <- <- _.
    apply route_chain_in in Hin as [_ ->].
    rewrite route_expiryDataFor_map. cbn [Server.calls Server.puts].
    apply Forall2_map_both. intros K. apply route_pair_aligned.
  - intros S v r daysToExpiration count step chain days expiryData Hgen Hin.
    apply calc_chain_in in Hgen as [_ Hchain].
    apply Hchain in Hin as [_ ->].
    rewrite calc_expiryDataFor_map. cbn [calls puts].
    apply Forall2_map_both. intros K. apply calc_pair_aligned.
Qed.

Lemma calls_and_puts_paired_witness :
  let expiryData :=
    expiryDataFor 101 (chainVolatility 0.3) 0.035 (30 / DAYS_PER_YEAR)
      (strikesOf 101 10 5) in
  Forall2
    (fun call put =>
       strike call = strike put
       /\ gamma call = gamma put
       /\ vega call = vega put
       /\ (delta put = delta call - 1 \/ (delta call = 0 /\ delta put = 0))
       /\ inTheMoney call && inTheMoney put = false)
    (calls expiryData) (puts expiryData).
Proof.
  intros expiryData.
  apply (proj2 calls_and_puts_paired 101 0.3 0.035 [30] 10%Z 5
           [(30, expiryData)] 30 expiryData).
  - rewrite generateOptionChain_eq, Rleb_false by lra. reflexivity.
  - left. reflexivity.
Defined.

End Pairing.

(** ** The answer of the options route *)

Section RouteMore.
Import OptionCalc Aux.
Open Scope R_scope.

Variable parseDate : string -> option Z.
Variable today : Z.

(** A JSON answer comes from a non-empty result set and is built from its
    rows. *)
Lemma optionsHandler_inv (ticker : string) (requestedDate : option string)
    (db : Server.DbResult) (warns : list string) (ticker' : string)
    (spot volatility : R) (chain : list (Z * Server.ExpiryData))
    (customDate : option string) :
  Server.optionsHandler parseDate today ticker requestedDate db
  = (warns, Server.Json ticker' spot volatility chain customDate) ->
  exists rows,
    db = Server.DbRows (spot :: rows)
    /\ volatility = snd (Server.volatilityOf (spot :: rows))
    /\ chain
       = Server.optionChainOf spot volatility 0.035 (Server.strikeLadder spot)
           (snd (Server.expiryLadder parseDate today requestedDate)).
Proof.
  intros Hresp. destruct db as [message | [| row0 rows]]; try discriminate.
  unfold Server.optionsHandler in Hresp.
  destruct (Server.volatilityOf (row0 :: rows)) as [w1 vol] eqn:Hv.
  destruct (Server.expiryLadder parseDate today requestedDate) as [w2 days].
  injection Hresp as _ _ Hs Hvol Hchain _. subst spot volatility chain.
  exists rows. rewrite Hv. repeat split.
Qed.

Lemma volatilityOf_range (rows : list R) :
  0.1 <= snd (Server.volatilityOf rows) <= 0.8.
Proof.
  unfold Server.volatilityOf.
  destruct (1 <? List.length rows)%nat; [| simpl; lra].
  destruct (calculateHistoricalVolatility rows 30) as [w vol]. cbn [snd].
  unfold Rmax, Rmin.
  destruct (Rle_dec vol 0.8); destruct (Rle_dec 0.1 _); lra.
Qed.

Lemma route_priceStrike_floor (S v r T K : R) :
  0.01 <= Server.price (fst (Server.priceStrike S v r T K))
  /\ 0.01 <= Server.price (snd (Server.priceStrike S v r T K)).
Proof.
  destruct (priced S K T v) eqn:Hp.
  - destruct (route_priceStrike_priced S v r T K Hp)
      as (c & p & g & ct & pt & vg & _ & _ & ->).
    simpl. split; apply Rmax_l.
  - rewrite (route_priceStrike_failed S v r T K Hp). simpl. lra.
Qed.

(** X13: in every JSON answer of the options route the price is the most
    recent close, the volatility lies in [[0.10, 0.80]], and no contract is
    priced below 0.01. *)
Theorem optionsHandler_bounds (ticker : string) (requestedDate : option string)
    (db : Server.DbResult) (warns : list string) (ticker' : string)
    (spot volatility : R) (chain : list (Z * Server.ExpiryData))
    (customDate : option string) :
  Server.optionsHandler parseDate today ticker requestedDate db
  = (warns, Server.Json ticker' spot volatility chain customDate) ->
  (exists rows, db = Server.DbRows (spot :: rows))
  /\ 0.1 <= volatility <= 0.8
  /\ (forall days expiryData c,
        In (days, expiryData) chain ->
        In c (Server.calls expiryData) \/ In c (Server.puts expiryData) ->
        0.01 <= Server.price c).
Proof.
  intros Hresp.
  destruct (optionsHandler_inv _ _ _ _ _ _ _ _ _ Hresp)
    as (rows & -> & Hvol & ->).
  split; [eauto |]. split.
  - rewrite Hvol. apply volatilityOf_range.
  - intros days expiryData c Hin Hc.
    apply route_chain_in in Hin as [_ ->].
    rewrite route_expiryDataFor_map in Hc. cbn [Server.calls Server.puts] in Hc.
    destruct Hc as [Hc | Hc]; apply in_map_iff in Hc as (K & <- & _);
      apply route_priceStrike_floor.
Qed.

End RouteMore.

Section RouteMoreExamples.
Import OptionCalc Aux.
Open Scope R_scope.

Lemma optionsHandler_bounds_witness :
  0.1 <= 0.25 <= 0.8
  /\ (forall days expiryData c,
        In (days, expiryData)
          (Server.optionChainOf 101 0.25 0.035 (Server.strikeLadder 101)
             [0; 30; 60; 90; 180]%Z) ->
        In c (Server.calls expiryData) \/ In c (Server.puts expiryData) ->
        0.01 <= Server.price c).
Proof.
  apply (optionsHandler_bounds (fun _ => None) 0%Z "ABC" None
           (Server.DbRows [101]) [] "ABC" 101 0.25
           (Server.optionChainOf 101 0.25 0.035 (Server.strikeLadder 101)
              [0; 30; 60; 90; 180]%Z) None).
  reflexivity.
Defined.

End RouteMoreExamples.

(** ** The expiries and strikes of the options route *)

Section RouteLadders.
Import OptionCalc Aux.

Variable parseDate : string -> option Z.
Variable today : Z.

Lemma Math_ceil_div_pos (a b : Z) :
  (0 < a)%Z -> (0 < b)%Z -> (1 <= Server.Math_ceil_div a b)%Z.
Proof.
  intros Ha Hb. unfold Server.Math_ceil_div.
  assert (- a / b < 0)%Z by (apply Z.div_lt_upper_bound; lia).
  lia.
Qed.

(** The ladder always has five day counts, ascending and not negative. *)
Lemma expiryLadder_shape (requestedDate : option string) :
  let ladder := snd (Server.expiryLadder parseDate today requestedDate) in
  List.length ladder = 5%nat
  /\ StronglySorted Z.le ladder
  /\ Forall (fun days => (0 <= days)%Z) ladder.
Proof.
  assert (Hdefault :
    List.length [0; 30; 60; 90; 180]%Z = 5%nat
    /\ StronglySorted Z.le [0; 30; 60; 90; 180]%Z
    /\ Forall (fun days => (0 <= days)%Z) [0; 30; 60; 90; 180]%Z).
  { split; [reflexivity |].
    split; repeat constructor; lia. }
  unfold Server.expiryLadder.
  destruct requestedDate as [date |]; [| exact Hdefault].
  destruct (Server.truthy date); [| exact Hdefault].
  destruct (parseDate date) as [targetDate |]; [| exact Hdefault].
  destruct (Z.ltb_spec today targetDate) as [Hlt | Hge]; [| exact Hdefault].
  cbn [snd filter Z.eqb negb].
  set (diffDays := Server.Math_ceil_div (Z.abs (targetDate - today))
                     Server.msPerDay).
  assert (Hd : (1 <= diffDays)%Z).
  { apply Math_ceil_div_pos; [lia | reflexivity]. }
  pose proof (sort_perm Z.leb (diffDays :: [30; 60; 90; 180]%Z)) as Hperm.
  split; [| split].
  - rewrite (Permutation_length Hperm). reflexivity.
  - apply sort_Z_sorted.
  - apply Forall_forall. intros d Hin.
    apply (Permutation_in _ Hperm) in Hin. simpl in Hin.
    intuition lia.
Qed.

(** X14: the chain of a JSON answer has exactly one entry for each day
    count of the expiry ladder, and that ladder always holds five day
    counts, in ascending order, none of them negative. *)
Theorem optionsHandler_expiries (ticker : string)
    (requestedDate : option string) (db : Server.DbResult)
    (warns : list string) (ticker' : string) (spot volatility : R)
    (chain : list (Z * Server.ExpiryData)) (customDate : option string) :
  Server.optionsHandler parseDate today ticker requestedDate db
  = (warns, Server.Json ticker' spot volatility chain customDate) ->
  let ladder := snd (Server.expiryLadder parseDate today requestedDate) in
  NoDup (map fst chain)
  /\ (forall days, In days (map fst chain) <-> In days ladder)
  /\ List.length ladder = 5%nat
  /\ StronglySorted Z.le ladder
  /\ Forall (fun days => (0 <= days)%Z) ladder.
Proof.
  intros Hresp ladder.
  destruct (optionsHandler_inv _ _ _ _ _ _ _ _ _ _ _ Hresp)
    as (rows & _ & _ & ->).
  fold ladder.
  split; [| split; [| apply expiryLadder_shape]].
  - unfold Server.optionChainOf.
    apply (obj_fold_NoDup Z.eqb Z.eqb_spec
             (fun days =>
                Server.expiryDataFor spot volatility 0.035 (routeTime days)
                  (Server.strikeLadder spot))).
    constructor.
  - intros days. rewrite in_map_iff. split.
    + intros ([d ed] & <- & Hd). apply route_chain_in in Hd. tauto.
    + intros Hd. eexists (days, _). split; [reflexivity |].
      apply route_chain_in. split; [exact Hd | reflexivity].
Qed.

Lemma route_expiryDataFor_strikes (S v r T : R) (strikes : list R) :
  map Server.strike (Server.calls (Server.expiryDataFor S v r T strikes))
  = strikes
  /\ map Server.strike (Server.puts (Server.expiryDataFor S v r T strikes))
     = strikes.
Proof.
  rewrite route_expiryDataFor_map. cbn [Server.calls Server.puts].
  rewrite !map_map.
  split; rewrite <- (map_id strikes) at 2; apply map_ext; intros K;
    apply (route_contract_pair S v r T K).
Qed.

(** X15: every entry of the chain of a JSON answer lists eleven calls and
    eleven puts, one per strike of the ladder and in its descending order,
    from the base strike plus 25 down to the base strike minus 25. *)
Theorem optionsHandler_strikes (ticker : string)
    (requestedDate : option string) (db : Server.DbResult)
    (warns : list string) (ticker' : string) (spot volatility : R)
    (chain : list (Z * Server.ExpiryData)) (customDate : option string)
    (days : Z) (expiryData : Server.ExpiryData) :
  Server.optionsHandler parseDate today ticker requestedDate db
  = (warns, Server.Json ticker' spot volatility chain customDate) ->
  In (days, expiryData) chain ->
  let ladder :=
    map (fun i => (Math_round (spot / 5) * 5 + IZR i * 5)%R)
      [5; 4; 3; 2; 1; 0; -1; -2; -3; -4; -5]%Z in
  map Server.strike (Server.calls expiryData) = ladder
  /\ map Server.strike (Server.puts expiryData) = ladder.
Proof.
  intros Hresp Hin ladder.
  destruct (optionsHandler_inv _ _ _ _ _ _ _ _ _ _ _ Hresp)
    as (rows & _ & _ & ->).
  apply route_chain_in in Hin as [_ ->].
  unfold ladder. rewrite <- strikeLadder_eq.
  apply route_expiryDataFor_strikes.
Qed.

End RouteLadders.

Section RouteLaddersExamples.
Import OptionCalc Aux.

Lemma optionsHandler_expiries_witness :
  let chain :=
    Server.optionChainOf 101 0.25 0.035 (Server.strikeLadder 101)
      [0; 30; 60; 90; 180]%Z in
  NoDup (map fst chain)
  /\ (forall days, In days (map fst chain) <-> In days [0; 30; 60; 90; 180]%Z)
  /\ List.length [0; 30; 60; 90; 180]%Z = 5%nat
  /\ StronglySorted Z.le [0; 30; 60; 90; 180]%Z
  /\ Forall (fun days => (0 <= days)%Z) [0; 30; 60; 90; 180]%Z.
Proof.
  intros chain.
  apply (optionsHandler_expiries (fun _ => None) 0%Z "ABC" None
           (Server.DbRows [101%R]) [] "ABC" 101%R 0.25%R chain None).
  reflexivity.
Defined.

Lemma optionsHandler_strikes_witness :
  let expiryData :=
    Server.expiryDataFor 101 0.25 0.035 (routeTime 30)
      (Server.strikeLadder 101) in
  let ladder :=
    map (fun i => (Math_round (101 / 5) * 5 + IZR i * 5)%R)
      [5; 4; 3; 2; 1; 0; -1; -2; -3; -4; -5]%Z in
  map Server.strike (Server.calls expiryData) = ladder
  /\ map Server.strike (Server.puts expiryData) = ladder.
Proof.
  intros expiryData.
  apply (optionsHandler_strikes (fun _ => None) 0%Z "ABC" None
           (Server.DbRows [101%R]) [] "ABC" 101%R 0.25%R
           (Server.optionChainOf 101 0.25 0.035 (Server.strikeLadder 101)
              [0; 30; 60; 90; 180]%Z)
           None 30%Z expiryData).
  - reflexivity.
  - apply route_chain_in. split; [simpl; tauto | reflexivity].
Defined.

End RouteLaddersExamples.

(** ** Spots whose ladder is priced everywhere *)

Section RoutePriced.
Import OptionCalc Aux.
Open Scope R_scope.

Lemma Math_round_lower (x : R) (n : Z) :
  IZR n - 1 / 2 <= x -> IZR n <= Math_round x.
Proof.
  intros Hx. unfold Math_round. apply IZR_le.
  destruct (base_Int_part (x + 1 / 2)) as [_ Hgt].
  assert (Hlt : IZR n - 1 < IZR (Int_part (x + 1 / 2))) by lra.
  rewrite <- minus_IZR in Hlt. apply lt_IZR in Hlt. lia.
Qed.

Lemma routeTime_pos (days : Z) : (0 <= days)%Z -> 0 < routeTime days.
Proof.
  intros Hd. unfold routeTime.
  destruct (Z.eqb_spec days 0) as [-> | Hne]; [lra |].
  assert (1 <= IZR days) by (apply IZR_le; lia). lra.
Qed.

Lemma strikeLadder_lower (spot K : R) :
  In K (Server.strikeLadder spot) -> Math_round (spot / 5) * 5 - 25 <= K.
Proof.
  rewrite strikeLadder_eq. intros Hin.
  apply in_map_iff in Hin as (i & <- & Hi).
  assert (IZR (-5) <= IZR i).
  { apply IZR_le. simpl in Hi. intuition lia. }
  lra.
Qed.

(** X16: when the most recent close is at least 27.5 every strike of the
    route's ladder is positive and nothing is a placeholder: the invariant
    of the data model holds for the whole chain. *)
Theorem optionsHandler_invariant (parseDate : string -> option Z) (today : Z)
    (ticker : string) (requestedDate : option string) (db : Server.DbResult)
    (warns : list string) (ticker' : string) (spot volatility : R)
    (chain : list (Z * Server.ExpiryData)) (customDate : option string) :
  Server.optionsHandler parseDate today ticker requestedDate db
  = (warns, Server.Json ticker' spot volatility chain customDate) ->
  27.5 <= spot ->
  Spec.contract_invariant spot chain.
Proof.
  intros Hresp Hspot days expiryData Hin.
  destruct (optionsHandler_inv _ _ _ _ _ _ _ _ _ _ _ Hresp)
    as (rows & _ & Hvol & Hchain).
  pose proof (volatilityOf_range (spot :: rows)) as Hrange.
  rewrite <- Hvol in Hrange.
  assert (Hdays : (0 <= days)%Z).
  { subst chain. apply route_chain_in in Hin as [Hd _].
    destruct (expiryLadder_shape parseDate today requestedDate)
      as (_ & _ & Hall).
    rewrite Forall_forall in Hall. apply Hall, Hd. }
  assert (Hbase : 30 <= Math_round (spot / 5) * 5).
  { pose proof (Math_round_lower (spot / 5) 6 ltac:(lra)). lra. }
  assert (Hpriced : forall K,
            In K (Server.strikeLadder spot) ->
            priced spot K (routeTime days) volatility = true).
  { intros K HK. apply priced_true.
    pose proof (strikeLadder_lower spot K HK).
    pose proof (routeTime_pos days Hdays). lra. }
  assert (Hstrikes :
    map Server.strike (Server.calls expiryData) = Server.strikeLadder spot
    /\ map Server.strike (Server.puts expiryData) = Server.strikeLadder spot).
  { subst chain. apply route_chain_in in Hin as [_ ->].
    apply route_expiryDataFor_strikes. }
  destruct Hstrikes as [Hcs Hps].
  subst chain.
  destruct (route_chain_contracts _ _ _ _ _ _ _ Hin) as [Hcalls Hputs].
  split; intros c Hc.
  - destruct (Hcalls c Hc) as [Hdelta Hflag].
    rewrite Hflag, Hpriced; [split; [reflexivity | exact Hdelta] |].
    rewrite <- Hcs. apply in_map, Hc.
  - destruct (Hputs c Hc) as [Hdelta Hflag].
    rewrite Hflag, Hpriced; [split; [reflexivity | exact Hdelta] |].
    rewrite <- Hps. apply in_map, Hc.
Qed.

Lemma optionsHandler_invariant_witness :
  Spec.contract_invariant 101
    (Server.optionChainOf 101 0.25 0.035 (Server.strikeLadder 101)
       [0; 30; 60; 90; 180]%Z).
Proof.
  apply (optionsHandler_invariant (fun _ => None) 0%Z "ABC" None
           (Server.DbRows [101]) [] "ABC" 101 0.25
           (Server.optionChainOf 101 0.25 0.035 (Server.strikeLadder 101)
              [0; 30; 60; 90; 180]%Z)
           None).
  - reflexivity.
  - lra.
Defined.

End RoutePriced.

(** ** Staleness and refresh of the stored prices *)

Section FreshnessFacts.
Open Scope Z_scope.

Variable parseDate : string -> option Z.

Lemma ceil_days_gt (d n : Z) :
  n < Server.Math_ceil_div d Server.msPerDay <-> n * Server.msPerDay < d.
Proof.
  unfold Server.Math_ceil_div, Server.msPerDay.
  pose proof (Z.div_mod (- d) (1000 * 60 * 60 * 24) ltac:(lia)) as Hdm.
  pose proof (Z.mod_pos_bound (- d) (1000 * 60 * 60 * 24) ltac:(lia)) as Hb.
  lia.
Qed.

Lemma floor_days_lt (d n : Z) :
  d / (1000 * 60 * 60 * 24) < n <-> d < n * (1000 * 60 * 60 * 24).
Proof.
  pose proof (Z.div_mod d (1000 * 60 * 60 * 24) ltac:(lia)) as Hdm.
  pose proof (Z.mod_pos_bound d (1000 * 60 * 60 * 24) ltac:(lia)) as Hb.
  lia.
Qed.

Lemma isDataStale_week_aux (currentDate : Z) (latest_date : string)
    (latestDate : Z) :
  Server.truthy latest_date = true ->
  parseDate latest_date = Some latestDate ->
  Server.isDataStale parseDate currentDate
    (Return (Some (Some latest_date))) = true
  <-> 604800000 < currentDate - latestDate.
Proof.
  intros Ht Hp. unfold Server.isDataStale. rewrite Ht, Hp. cbn [negb].
  rewrite Z.ltb_lt, ceil_days_gt. unfold Server.msPerDay. lia.
Qed.

(** X17: with a valid latest date the data is stale exactly when more
    than seven days, 604800000 ms, have passed since it; a latest date
    that cannot be read is not stale, and a failed query is not either. *)
Theorem isDataStale_week (currentDate : Z) (latest_date : string) :
  Server.truthy latest_date = true ->
  (forall latestDate,
     parseDate latest_date = Some latestDate ->
     Server.isDataStale parseDate currentDate
       (Return (Some (Some latest_date))) = true
     <-> 604800000 < currentDate - latestDate)
  /\ (parseDate latest_date = None ->
      Server.isDataStale parseDate currentDate
        (Return (Some (Some latest_date))) = false)
  /\ (forall error,
        Server.isDataStale parseDate currentDate (Throw error) = false).
Proof.
  intros Ht. unfold Server.isDataStale. rewrite Ht. cbn [negb].
  split; [| split].
  - intros latestDate Hp. fold (Server.truthy latest_date) in Ht.
    rewrite Hp. rewrite Z.ltb_lt, ceil_days_gt.
    unfold Server.msPerDay. lia.
  - intros ->. reflexivity.
  - reflexivity.
Qed.

(** X18: [updateExistingStockData] answers [true] without fetching while
    less than one day has passed since the latest date; and when
    [isDataStale] has found the data stale for a latest date, the update
    made at that time or later always fetches, and returns whether the
    fetch succeeded. *)
Theorem updateExistingStockData_refresh {A : Type} (today : Z)
    (countRow : completion string (option Z)) (latest : string)
    (latestDate : Z) (fetch : completion string A) :
  AlphaVantage.tickerExistsInDatabase countRow = true ->
  AlphaVantage.nonempty latest = true ->
  parseDate latest = Some latestDate ->
  (today - latestDate < 86400000 ->
   AlphaVantage.updateExistingStockData parseDate today countRow
     (Return (Some (Some latest))) fetch = (true, false))
  /\ (forall currentDate,
        Server.isDataStale parseDate currentDate
          (Return (Some (Some latest))) = true ->
        currentDate <= today ->
        AlphaVantage.updateExistingStockData parseDate today countRow
          (Return (Some (Some latest))) fetch = (returned fetch, true)).
Proof.
  intros Hex Hne Hp. unfold AlphaVantage.updateExistingStockData.
  rewrite Hex, Hne, Hp. cbn [negb]. split.
  - intros Hlt.
    assert (Hb : ((today - latestDate) / (1000 * 60 * 60 * 24) <? 1) = true).
    { apply Z.ltb_lt, floor_days_lt. lia. }
    rewrite Hb. reflexivity.
  - intros currentDate Hstale Hle.
    apply (proj1 (isDataStale_week_aux currentDate latest latestDate Hne Hp))
      in Hstale.
    assert (Hb : ((today - latestDate) / (1000 * 60 * 60 * 24) <? 1) = false).
    { apply Z.ltb_ge.
      destruct (Z.lt_ge_cases ((today - latestDate) / (1000 * 60 * 60 * 24)) 1)
        as [Hlt | Hge]; [| lia].
      apply floor_days_lt in Hlt. lia. }
    rewrite Hb. destruct fetch; reflexivity.
Qed.

End FreshnessFacts.

Section FreshnessExamples.
Open Scope Z_scope.

Lemma isDataStale_week_witness :
  let parseDate := fun _ : string => Some 0 in
  (Server.isDataStale parseDate 604800001
     (Return (Some (Some "2024-01-05"%string))) = true
   <-> 604800000 < 604800001 - 0)
  /\ Server.isDataStale (fun _ => None) 604800001
       (Return (Some (Some "yesterday"%string))) = false.
Proof.
  intros parseDate. split.
  - apply (isDataStale_week parseDate 604800001 "2024-01-05"%string);
      reflexivity.
  - apply (isDataStale_week (fun _ => None) 604800001 "yesterday"%string);
      reflexivity.
Defined.

Lemma updateExistingStockData_refresh_witness :
  let parseDate := fun _ : string => Some 0 in
  AlphaVantage.updateExistingStockData parseDate 3600000 (Return (Some 250))
    (Return (Some (Some "2024-01-05"%string))) (Throw (A := unit) "offline"%string)
  = (true, false)
  /\ AlphaVantage.updateExistingStockData parseDate 700000000
       (Return (Some 250)) (Return (Some (Some "2024-01-05"%string)))
       (Throw (A := unit) "offline"%string)
     = (false, true).
Proof.
  intros parseDate. split.
  - apply (updateExistingStockData_refresh parseDate 3600000 (Return (Some 250))
             "2024-01-05"%string 0 (Throw "offline"%string)); reflexivity.
  - apply (proj2 (updateExistingStockData_refresh parseDate 700000000
                    (Return (Some 250)) "2024-01-05"%string 0
                    (Throw "offline"%string)
                    eq_refl eq_refl eq_refl) 650000000).
    + reflexivity.
    + discriminate.
Defined.

End FreshnessExamples.

(** ** Retry: success, number of waits, total wait *)

Section RetryMore.
Import AlphaVantage Aux.
Open Scope Z_scope.

Context {A : Type}.

Lemma retry_loop_success (fn : Z -> completion RequestError A)
    (err : Z -> RequestError) (a : A) (maxRetries initialDelay k : Z) (n : nat) :
  forall retries,
    Z.of_nat n = k - retries ->
    k <= maxRetries ->
    (forall j, retries <= j < k -> fn j = Throw (err j)) ->
    fn k = Return a ->
    retry_loop fn maxRetries initialDelay retries
    = (map (fun j => backoff initialDelay j (err j)) (for_range retries (k - 1)),
       Return a).
Proof.
  induction n as [| n IH]; intros retries Hn Hk Hfail Hok.
  - assert (retries = k) by lia. subst retries.
    rewrite (retry_loop_return fn _ _ _ a Hok).
    rewrite for_range_empty by lia. reflexivity.
  - rewrite (retry_loop_again fn _ _ _ (err retries)) by (try apply Hfail; lia).
    rewrite (IH (retries + 1)) by (try lia; try assumption; intros; apply Hfail; lia).
    rewrite (for_range_cons retries (k - 1)) by lia. reflexivity.
Qed.

(** X19: when the call number [k] (from 0) is the first to succeed and
    [k] retries are allowed, [retryWithBackoff] returns its value after
    waiting once per failure; without rate limiting the delays add up to
    [initialDelay * (2^k - 1)]. *)
Theorem retryWithBackoff_first_success (fn : Z -> completion RequestError A)
    (err : Z -> RequestError) (a : A) (maxRetries initialDelay k : Z) :
  0 <= k <= maxRetries ->
  (forall j, 0 <= j < k -> fn j = Throw (err j)) ->
  fn k = Return a ->
  retryWithBackoff fn maxRetries initialDelay
  = (map (fun j => backoff initialDelay j (err j)) (for_range 0 (k - 1)),
     Return a)
  /\ ((forall j, 0 <= j < k -> isRateLimit (err j) = false) ->
      Zsum (fst (retryWithBackoff fn maxRetries initialDelay))
      = initialDelay * (2 ^ k - 1)).
Proof.
  intros Hk Hfail Hok.
  assert (Heq : retryWithBackoff fn maxRetries initialDelay
          = (map (fun j => backoff initialDelay j (err j)) (for_range 0 (k - 1)),
             Return a)).
  { unfold retryWithBackoff.
    apply (retry_loop_success fn err a maxRetries initialDelay k (Z.to_nat k));
      try assumption; lia. }
  split; [exact Heq |].
  intros Hno. rewrite Heq. cbn [fst].
  assert (Hsum : forall n lo,
            0 <= lo -> Z.of_nat n = k - lo ->
            Zsum (map (fun j => backoff initialDelay j (err j))
                    (for_range lo (k - 1)))
            = initialDelay * (2 ^ k - 2 ^ lo)).
  { induction n as [| n IH]; intros lo Hlo Hn.
    - assert (lo = k) by lia. subst lo.
      rewrite for_range_empty by lia. simpl. lia.
    - rewrite for_range_cons by lia. cbn [map Zsum fold_right].
      fold (Zsum (map (fun j => backoff initialDelay j (err j))
                    (for_range (lo + 1) (k - 1)))).
      rewrite (IH (lo + 1)) by lia.
      unfold backoff. rewrite Hno by lia.
      rewrite Z.pow_add_r by lia. lia. }
  rewrite (Hsum (Z.to_nat k) 0) by lia. simpl (2 ^ 0). reflexivity.
Qed.

Lemma retry_loop_bounded (fn : Z -> completion RequestError A)
    (maxRetries initialDelay : Z) (n : nat) :
  0 <= initialDelay ->
  forall retries,
    0 <= retries -> Z.of_nat n = maxRetries - retries ->
    let delays := fst (retry_loop fn maxRetries initialDelay retries) in
    Z.of_nat (List.length delays) <= maxRetries - retries
    /\ Forall (fun d => 0 <= d) delays
    /\ Zsum delays <= 2 * initialDelay * (2 ^ maxRetries - 2 ^ retries).
Proof.
  intros Hd. induction n as [| n IH]; intros retries Hr Hn delays; subst delays.
  - assert (retries = maxRetries) by lia. subst retries.
    destruct (fn maxRetries) as [a | e] eqn:Hfn.
    + rewrite (retry_loop_return fn _ _ _ a Hfn).
      cbn [fst List.length Zsum fold_right].
      split; [lia |]. split; [constructor | lia].
    + rewrite (retry_loop_exhausted fn _ _ _ e Hfn) by lia.
      cbn [fst List.length Zsum fold_right].
      split; [lia |]. split; [constructor | lia].
  - destruct (fn retries) as [a | e] eqn:Hfn.
    + rewrite (retry_loop_return fn _ _ _ a Hfn).
      cbn [fst List.length Zsum fold_right].
      assert (2 ^ retries <= 2 ^ maxRetries)
        by (apply Z.pow_le_mono_r; lia).
      split; [lia |]. split; [constructor | nia].
    + rewrite (retry_loop_again fn _ _ _ e Hfn) by lia. cbn [fst].
      destruct (IH (retries + 1) ltac:(lia) ltac:(lia)) as (Hlen & Hpos & Hsum).
      assert (Hpow : 0 < 2 ^ retries) by (apply Z.pow_pos_nonneg; lia).
      assert (Hb : 0 <= backoff initialDelay retries e
                   <= 2 * initialDelay * 2 ^ retries).
      { unfold backoff. destruct (isRateLimit e); nia. }
      rewrite Z.pow_add_r in Hsum by lia.
      cbn [List.length Zsum fold_right].
      fold (Zsum (fst (retry_loop fn maxRetries initialDelay (retries + 1)))).
      split; [lia |]. split; [constructor; [lia | exact Hpos] | lia].
Qed.

(** X20: whatever the calls do, [retryWithBackoff] waits at most
    [maxRetries] times and at most [2 * initialDelay * (2^maxRetries - 1)]
    ms in all, 14 seconds with the defaults; with no retry allowed it
    waits not at all and gives the outcome of the single call. *)
Theorem retryWithBackoff_bounded (fn : Z -> completion RequestError A)
    (maxRetries initialDelay : Z) :
  (0 <= maxRetries -> 0 <= initialDelay ->
   Z.of_nat (List.length (fst (retryWithBackoff fn maxRetries initialDelay)))
   <= maxRetries
   /\ Zsum (fst (retryWithBackoff fn maxRetries initialDelay))
      <= 2 * initialDelay * (2 ^ maxRetries - 1))
  /\ (Zsum (fst (retryWithBackoff fn 3 1000)) <= 14000)
  /\ (maxRetries <= 0 ->
      retryWithBackoff fn maxRetries initialDelay = ([], fn 0)).
Proof.
  assert (Hgen : forall m d, 0 <= m -> 0 <= d ->
            Z.of_nat (List.length (fst (retryWithBackoff fn m d))) <= m
            /\ Zsum (fst (retryWithBackoff fn m d)) <= 2 * d * (2 ^ m - 1)).
  { intros m d Hm Hd. unfold retryWithBackoff.
    destruct (retry_loop_bounded fn m d (Z.to_nat m) Hd 0 ltac:(lia) ltac:(lia))
      as (Hlen & _ & Hsum).
    simpl (2 ^ 0) in Hsum. split; lia. }
  split; [apply Hgen |]. split.
  - destruct (Hgen 3 1000 ltac:(lia) ltac:(lia)) as [_ H]. exact H.
  - intros Hm. unfold retryWithBackoff.
    destruct (fn 0) as [a | e] eqn:Hfn.
    + apply (retry_loop_return fn _ _ _ a Hfn).
    + apply (retry_loop_exhausted fn _ _ _ e Hfn). lia.
Qed.

End RetryMore.

Section RetryMoreExamples.
Import AlphaVantage Aux.
Open Scope Z_scope.

Lemma retryWithBackoff_first_success_witness :
  let busy := mkRequestError "socket hang up" None in
  let fn := fun k : Z => if k <? 2 then Throw busy else Return 7 in
  retryWithBackoff fn 3 1000 = ([1000; 2000], Return 7)
  /\ Zsum (fst (retryWithBackoff fn 3 1000)) = 1000 * (2 ^ 2 - 1).
Proof.
  intros busy fn.
  destruct (retryWithBackoff_first_success fn (fun _ => busy) 7 3 1000 2)
    as [Heq Hsum]; try reflexivity; try lia.
  - intros j Hj. unfold fn.
    assert (Hb : (j <? 2) = true) by (apply Z.ltb_lt; lia).
    rewrite Hb. reflexivity.
  - split; [exact Heq |]. apply Hsum. reflexivity.
Defined.

Lemma retryWithBackoff_bounded_witness :
  let fn := fun _ : Z => Throw (A := unit) (mkRequestError "timeout" None) in
  Z.of_nat (List.length (fst (retryWithBackoff fn 3 1000))) <= 3
  /\ Zsum (fst (retryWithBackoff fn 3 1000)) <= 2 * 1000 * (2 ^ 3 - 1).
Proof.
  intros fn.
  apply (proj1 (retryWithBackoff_bounded fn 3 1000)); lia.
Defined.

End RetryMoreExamples.

(** ** Fetching and storing a series *)

Section FetchFacts.
Import AlphaVantage.
Open Scope Z_scope.

Variable parseDate : string -> option Z.

Lemma insertAll_sent (db : Database) (ticker : string)
    (entries : list (string * DailyEntry)) :
  forall sent,
    exists commands,
      fst (insertAll db ticker entries sent) = sent ++ commands
      /\ (snd (insertAll db ticker entries sent) = None ->
          commands = map (fun '(date, entry) => Insert ticker date entry) entries).
Proof.
  induction entries as [| [date entry] entries IH]; intros sent; simpl.
  - exists []. rewrite app_nil_r. split; reflexivity.
  - destruct (db sent (Insert ticker date entry)) as [error |].
    + exists [Insert ticker date entry]. split; [reflexivity | discriminate].
    + destruct (IH (sent ++ [Insert ticker date entry])) as (cmds & Hs & Hn).
      exists (Insert ticker date entry :: cmds). split.
      * rewrite Hs, <- app_assoc. reflexivity.
      * intros H. rewrite (Hn H). reflexivity.
Qed.

Lemma rollback_sent (db : Database) (sent : list DbCommand) (error : string) :
  fst (rollback db sent error) = sent ++ [Rollback].
Proof. unfold rollback. destruct (db sent Rollback); reflexivity. Qed.

(** What [storeSeries] has sent when it returns and when it throws. *)
Lemma storeSeries_sent (db : Database) (ticker : string)
    (timeSeries : list (string * DailyEntry)) :
  let dates := sort (fun a b => String.leb (fst a) (fst b)) timeSeries in
  match storeSeries parseDate db ticker timeSeries with
  | (sent, Return formattedData) =>
      sent = Begin :: map (fun '(date, entry) => Insert ticker date entry) dates
                      ++ [Finalize; Commit]
      /\ formattedData
         = map (fun '(date, entry) =>
                  mkBar (unixSeconds parseDate date) (entry_open entry) (entry_high entry)
                    (entry_low entry) (entry_close entry) (entry_volume entry))
             dates
  | (sent, Throw _) =>
      sent = [Begin] \/ exists commands, sent = Begin :: commands ++ [Rollback]
  end.
Proof.
  intros dates. unfold storeSeries. fold dates.
  destruct (db [] Begin) as [error |]; [left; reflexivity |].
  destruct (insertAll_sent db ticker dates [Begin]) as (cmds & Hs & Hn).
  destruct (insertAll db ticker dates [Begin]) as [sent [error |]];
    cbn [fst snd] in Hs, Hn.
  - pose proof (rollback_sent db sent error) as Hr.
    destruct (rollback db sent error) as [sent' error']. cbn [fst] in Hr.
    right. exists cmds. rewrite Hr, Hs. reflexivity.
  - specialize (Hn eq_refl). subst cmds.
    destruct (db sent Finalize) as [error |].
    + pose proof (rollback_sent db (sent ++ [Finalize]) error) as Hr.
      destruct (rollback db (sent ++ [Finalize]) error) as [sent' error'].
      cbn [fst] in Hr. right.
      exists (map (fun '(date, entry) => Insert ticker date entry) dates
              ++ [Finalize]).
      rewrite Hr, Hs. cbn [app]. rewrite <- !app_assoc. reflexivity.
    + destruct (db (sent ++ [Finalize]) Commit) as [error |].
      * pose proof (rollback_sent db (sent ++ [Finalize; Commit]) error) as Hr.
        destruct (rollback db (sent ++ [Finalize; Commit]) error)
          as [sent' error'].
        cbn [fst] in Hr. right.
        exists (map (fun '(date, entry) => Insert ticker date entry) dates
                ++ [Finalize; Commit]).
        rewrite Hr, Hs. cbn [app]. rewrite <- !app_assoc. reflexivity.
      * split; [| reflexivity]. rewrite Hs. reflexivity.
Qed.

End FetchFacts.

(** ** Sorting needs a total comparison only to order neighbours *)

Section SortNeighbours.
Context {A : Type} (leb : A -> A -> bool).
Hypothesis leb_total : forall a b, leb a b = true \/ leb b a = true.

Lemma insert_HdRel (x a : A) (l : list A) :
  leb a x = true ->
  HdRel (fun a b => leb a b = true) a l ->
  HdRel (fun a b => leb a b = true) a (insert leb x l).
Proof.
  intros Hax Hhd. destruct l as [| y l]; simpl.
  - constructor. exact Hax.
  - destruct (leb x y); constructor; [exact Hax |].
    inversion Hhd; assumption.
Qed.

Lemma insert_Sorted (x : A) (l : list A) :
  Sorted (fun a b => leb a b = true) l ->
  Sorted (fun a b => leb a b = true) (insert leb x l).
Proof.
  induction 1 as [| y l Hs IH Hhd]; simpl.
  - repeat constructor.
  - destruct (leb x y) eqn:Hxy.
    + constructor; [constructor; assumption |]. constructor. exact Hxy.
    + constructor; [exact IH |].
      apply insert_HdRel; [| exact Hhd].
      destruct (leb_total x y); congruence.
Qed.

Lemma sort_Sorted (l : list A) : Sorted (fun a b => leb a b = true) (sort leb l).
Proof.
  induction l as [| x l IH]; simpl.
  - constructor.
  - apply insert_Sorted, IH.
Qed.

End SortNeighbours.

(** ** What reaches the database *)

Section FetchClaims.
Import AlphaVantage.
Open Scope Z_scope.

Variable parseDate : string -> option Z.

Lemma fetch_with_key (key : string) (fn : Z -> completion RequestError ApiData)
    (db : Database) (ticker : string) :
  nonempty key = true -> key <> "your_api_key_here"%string ->
  fetchAndStoreStockData parseDate (Some key) fn db ticker
  = match retryWithBackoff fn 3 1000 with
    | (delays, Throw error) =>
        (delays, [],
         Throw ("Failed to fetch data for " ++ ticker ++ ": " ++ message error)%string)
    | (delays, Return data) =>
      match validateResponse ticker data with
      | Throw message =>
          (delays, [],
           Throw ("Failed to fetch data for " ++ ticker ++ ": " ++ message)%string)
      | Return timeSeries =>
        match storeSeries parseDate db ticker timeSeries with
        | (sent, Throw message) =>
            (delays, sent,
             Throw ("Failed to fetch data for " ++ ticker ++ ": " ++ message)%string)
        | (sent, Return formattedData) => (delays, sent, Return formattedData)
        end
      end
    end.
Proof.
  intros Hne Hkey. unfold fetchAndStoreStockData. rewrite Hne.
  destruct (String.eqb_spec key "your_api_key_here"); [contradiction |].
  reflexivity.
Qed.

(** X21: without an API key, or with the placeholder key, no request is
    made and nothing is sent to the database; the error thrown does not
    contain [apikey], so the price route answers it with the status 500
    and not with its 503 for a key that is not configured. *)
Theorem fetchAndStoreStockData_without_key (API_KEY : option string)
    (fn : Z -> completion RequestError ApiData) (db : Database)
    (ticker : string) :
  API_KEY = None \/ API_KEY = Some ""%string
  \/ API_KEY = Some "your_api_key_here"%string ->
  exists error,
    fetchAndStoreStockData parseDate API_KEY fn db ticker = ([], [], Throw error)
    /\ Server.fetchFromAlphaVantage ticker (Throw error) = Server.Prices500 error.
Proof.
  intros Hkey.
  exists "Alpha Vantage API key not set. Please configure ALPHA_VANTAGE_API_KEY in .env file."%string.
  split.
  - destruct Hkey as [-> | [-> | ->]]; reflexivity.
  - reflexivity.
Qed.

(** X22: an error of the provider never reaches the database.  When all
    the requests fail, or the response carries an error message, a note
    about a limit, or no time series, nothing is sent to the database and
    the error thrown is [Failed to fetch data for <ticker>: <reason>]; the
    error message goes before the note, and the note before the series. *)
Theorem fetchAndStoreStockData_rejects (key : string)
    (fn : Z -> completion RequestError ApiData) (db : Database)
    (ticker : string) (delays : list Z) :
  nonempty key = true -> key <> "your_api_key_here"%string ->
  let failed (reason : string) :=
    (delays, @nil DbCommand,
     @Throw string (list Bar)
       ("Failed to fetch data for " ++ ticker ++ ": " ++ reason)%string) in
  (forall error,
     retryWithBackoff fn 3 1000 = (delays, Throw error) ->
     fetchAndStoreStockData parseDate (Some key) fn db ticker
     = failed (message error))
  /\ (forall data,
        retryWithBackoff fn 3 1000 = (delays, Return data) ->
        (forall msg,
           errorMessage data = Some msg -> nonempty msg = true ->
           fetchAndStoreStockData parseDate (Some key) fn db ticker = failed msg)
        /\ (forall n,
              errorMessage data = None -> note data = Some n ->
              includes n "limit" = true ->
              fetchAndStoreStockData parseDate (Some key) fn db ticker
              = failed ("Alpha Vantage API rate limit reached: " ++ n)%string)
        /\ (errorMessage data = None ->
            (forall n, note data = Some n -> includes n "limit" = false) ->
            timeSeries data = None \/ timeSeries data = Some [] ->
            fetchAndStoreStockData parseDate (Some key) fn db ticker
            = failed ("No data found for ticker " ++ dquote ++ ticker ++ dquote
                      ++ " via Alpha Vantage API")%string)).
Proof.
  intros Hne Hkey failed. split.
  - intros error Hretry. rewrite fetch_with_key, Hretry by assumption.
    reflexivity.
  - intros data Hretry. split; [| split].
    + intros msg Hmsg Hmne. rewrite fetch_with_key, Hretry by assumption.
      unfold validateResponse. rewrite Hmsg, Hmne. reflexivity.
    + intros n Herr Hnote Hlimit. rewrite fetch_with_key, Hretry by assumption.
      unfold validateResponse. rewrite Herr, Hnote, Hlimit. reflexivity.
    + intros Herr Hnote Hseries. rewrite fetch_with_key, Hretry by assumption.
      unfold validateResponse. rewrite Herr.
      assert (Hs : match timeSeries data with
                   | Some (_ :: _ as entries) => @Return string _ entries
                   | _ => Throw ("No data found for ticker " ++ dquote ++ ticker
                                 ++ dquote ++ " via Alpha Vantage API")%string
                   end
                   = Throw ("No data found for ticker " ++ dquote ++ ticker
                            ++ dquote ++ " via Alpha Vantage API")%string).
      { destruct Hseries as [-> | ->]; reflexivity. }
      destruct (note data) as [n |].
      * rewrite (Hnote n eq_refl).
        destruct Hseries as [-> | ->]; reflexivity.
      * destruct Hseries as [-> | ->]; reflexivity.
Qed.

(** X23: with a key configured, bars are returned only after the whole
    series was inserted between [BEGIN] and a [COMMIT] that is the last
    command sent, one insert and one bar per entry in the ascending order
    of the dates; when an error is thrown it reads [Failed to fetch data
    for <ticker>: ...] and, if anything was sent after [BEGIN], the last
    command sent is [ROLLBACK]. *)
Theorem fetchAndStoreStockData_transaction (key : string)
    (fn : Z -> completion RequestError ApiData) (db : Database)
    (ticker : string) (delays : list Z) (sent : list DbCommand)
    (result : completion string (list Bar)) :
  nonempty key = true -> key <> "your_api_key_here"%string ->
  fetchAndStoreStockData parseDate (Some key) fn db ticker
  = (delays, sent, result) ->
  (forall formattedData,
     result = Return formattedData ->
     exists data timeSeries dates,
       retryWithBackoff fn 3 1000 = (delays, Return data)
       /\ validateResponse ticker data = Return timeSeries
       /\ Permutation dates timeSeries
       /\ Sorted (fun a b => String.leb (fst a) (fst b) = true) dates
       /\ sent = Begin
                 :: map (fun '(date, entry) => Insert ticker date entry) dates
                 ++ [Finalize; Commit]
       /\ formattedData
          = map (fun '(date, entry) =>
                   mkBar (unixSeconds parseDate date) (entry_open entry) (entry_high entry)
                     (entry_low entry) (entry_close entry) (entry_volume entry))
              dates)
  /\ (forall error,
        result = Throw error ->
        (exists reason,
           error
           = ("Failed to fetch data for " ++ ticker ++ ": " ++ reason)%string)
        /\ (sent = [] \/ sent = [Begin]
            \/ exists commands, sent = Begin :: commands ++ [Rollback])).
Proof.
  intros Hne Hkey. rewrite fetch_with_key by assumption.
  destruct (retryWithBackoff fn 3 1000) as [delays' [data | error]].
  2:{ intros H. injection H as <- <- <-.
      split; [intros ? Hd; discriminate Hd |].
      intros e He. injection He as <-.
      split; [eexists; reflexivity | left; reflexivity]. }
  destruct (validateResponse ticker data) as [timeSeries | msg] eqn:Hval.
  2:{ intros H. injection H as <- <- <-.
      split; [intros ? Hd; discriminate Hd |].
      intros e He. injection He as <-.
      split; [eexists; reflexivity | left; reflexivity]. }
  pose proof (storeSeries_sent parseDate db ticker timeSeries) as Hsent.
  cbv zeta in Hsent.
  destruct (storeSeries parseDate db ticker timeSeries) as [sent' [bars | msg]];
    intros H; injection H as <- <- <-.
  - split; [| intros ? Hd; discriminate Hd].
    intros formattedData Hb. injection Hb as <-.
    destruct Hsent as [Hs Hb].
    exists data, timeSeries,
      (sort (fun a b => String.leb (fst a) (fst b)) timeSeries).
    split; [reflexivity |]. split; [exact Hval |].
    split; [apply sort_perm |].
    split; [| split; assumption].
    apply (sort_Sorted (fun a b : string * DailyEntry => String.leb (fst a) (fst b))).
    intros a b. apply String.leb_total.
  - split; [intros ? Hd; discriminate Hd |].
    intros e He. injection He as <-.
    split; [eexists; reflexivity |]. right. exact Hsent.
Qed.

End FetchClaims.

Section FetchExamples.
Import AlphaVantage.
Open Scope Z_scope.

Lemma fetchAndStoreStockData_without_key_witness :
  exists error,
    fetchAndStoreStockData (fun _ => None) None
      (fun _ => Throw (mkRequestError "unreachable" None)) (fun _ _ => None)
      "SPY"
    = ([], [], Throw error)
    /\ Server.fetchFromAlphaVantage "SPY" (Throw error) = Server.Prices500 error.
Proof.
  apply (fetchAndStoreStockData_without_key (fun _ => None) None
           (fun _ => Throw (mkRequestError "unreachable" None))
           (fun _ _ => None) "SPY").
  left. reflexivity.
Defined.

Lemma fetchAndStoreStockData_rejects_witness :
  let data := mkApiData (Some "Invalid API call."%string) None (Some []) in
  fetchAndStoreStockData (fun _ => None) (Some "demo"%string)
    (fun _ => Return data) (fun _ _ => None) "SPY"
  = ([], [], Throw "Failed to fetch data for SPY: Invalid API call."%string).
Proof.
  intros data.
  apply (proj2 (fetchAndStoreStockData_rejects (fun _ => None) "demo"
                  (fun _ => Return data) (fun _ _ => None) "SPY" []
                  eq_refl ltac:(discriminate)) data eq_refl).
  - reflexivity.
  - reflexivity.
Defined.

(** A series of two days, given newest first, on a database that accepts
    every command. *)
Lemma fetchAndStoreStockData_transaction_witness :
  let day2 := mkDailyEntry 101 103 100 102 5000 in
  let day3 := mkDailyEntry 102 104 101 103 6000 in
  let data :=
    mkApiData None None
      (Some [("2024-01-03"%string, day3); ("2024-01-02"%string, day2)]) in
  exists dates,
    Sorted (fun a b => String.leb (fst a) (fst b) = true) dates
    /\ [Begin; Insert "SPY" "2024-01-02" day2; Insert "SPY" "2024-01-03" day3;
        Finalize; Commit]
       = Begin :: map (fun '(date, entry) => Insert "SPY" date entry) dates
                  ++ [Finalize; Commit].
Proof.
  intros day2 day3 data.
  destruct (proj1 (fetchAndStoreStockData_transaction (fun _ => None) "demo"
                     (fun _ => Return data) (fun _ _ => None) "SPY" []
                     [Begin; Insert "SPY" "2024-01-02" day2;
                      Insert "SPY" "2024-01-03" day3; Finalize; Commit]
                     (Return [mkBar None 101 103 100 102 5000;
                              mkBar None 102 104 101 103 6000])
                     eq_refl ltac:(discriminate) eq_refl)
              _ eq_refl)
    as (d & ts & dates & _ & _ & _ & Hsorted & Hsent & _).
  exists dates. split; assumption.
Defined.

End FetchExamples.

(** ** The dates of an imported file *)

Section ImportDates.
Import InitDb Aux.
Open Scope string_scope.

Lemma split_slash_nonempty (s : string) : split_slash s <> [].
Proof.
  destruct s as [| c rest]; simpl; [discriminate |].
  destruct (Ascii.eqb c "/"); [discriminate |].
  destruct (split_slash rest); discriminate.
Qed.

Lemma split_slash_part (m rest : string) :
  no_slash m = true ->
  split_slash (m ++ String "/" rest) = m :: split_slash rest.
Proof.
  induction m as [| c m IH]; simpl.
  - reflexivity.
  - intros H. apply andb_prop in H as [Hc Hm].
    apply negb_true_iff in Hc. rewrite Hc, (IH Hm). reflexivity.
Qed.

Lemma split_slash_last (y : string) : no_slash y = true -> split_slash y = [y].
Proof.
  induction y as [| c y IH]; simpl.
  - reflexivity.
  - intros H. apply andb_prop in H as [Hc Hy].
    apply negb_true_iff in Hc. rewrite Hc, (IH Hy). reflexivity.
Qed.

(** The parts have no slash, and joined by slashes they give the string
    back. *)
Lemma split_slash_join (s : string) :
  Forall (fun part => no_slash part = true) (split_slash s)
  /\ String.concat "/" (split_slash s) = s.
Proof.
  induction s as [| c rest [IHall IHjoin]]; simpl.
  - split; [repeat constructor | reflexivity].
  - destruct (Ascii.eqb_spec c "/") as [-> | Hc].
    + split; [constructor; [reflexivity | exact IHall] |].
      pose proof (split_slash_nonempty rest) as Hne.
      simpl. destruct (split_slash rest) as [| part parts]; [contradiction |].
      simpl. f_equal. exact IHjoin.
    + pose proof (split_slash_nonempty rest) as Hne.
      destruct (split_slash rest) as [| part parts]; [contradiction |].
      pose proof (Forall_inv IHall) as Hpart.
      pose proof (Forall_inv_tail IHall) as Hparts.
      split.
      * constructor; [| exact Hparts]. simpl.
        apply Ascii.eqb_neq in Hc. rewrite Hc, Hpart. reflexivity.
      * simpl in *. destruct parts; simpl in *; rewrite <- IHjoin; reflexivity.
Qed.

Lemma padStart2_length (s : string) :
  String.length (padStart2 s) = Nat.max 2 (String.length s).
Proof.
  destruct s as [| c [| c' s]]; simpl; try reflexivity.
Qed.

(** X24: a row is imported exactly when its date has two slashes, that is
    three parts [m/d/y]; its date is then stored as [y-m-d], with [m] and
    [d] padded with zeros to two characters at least. *)
Theorem dateStr_converts (Date : string) :
  (forall m d y,
     no_slash m = true -> no_slash d = true -> no_slash y = true ->
     Date = m ++ "/" ++ d ++ "/" ++ y ->
     dateStr Date = Some (y ++ "-" ++ padStart2 m ++ "-" ++ padStart2 d)
     /\ (2 <= String.length (padStart2 m))%nat
     /\ (2 <= String.length (padStart2 d))%nat)
  /\ (forall stored,
        dateStr Date = Some stored ->
        exists m d y,
          no_slash m = true /\ no_slash d = true /\ no_slash y = true
          /\ Date = m ++ "/" ++ d ++ "/" ++ y
          /\ stored = y ++ "-" ++ padStart2 m ++ "-" ++ padStart2 d).
Proof.
  split.
  - intros m d y Hm Hd Hy ->. unfold dateStr.
    change (m ++ "/" ++ d ++ "/" ++ y)
      with (m ++ String "/" (d ++ String "/" y)).
    rewrite (split_slash_part m _ Hm), (split_slash_part d _ Hd),
      (split_slash_last y Hy).
    split; [reflexivity |]. rewrite !padStart2_length. split; lia.
  - intros stored. unfold dateStr.
    destruct (split_slash_join Date) as [Hall Hjoin].
    destruct (split_slash Date) as [| m [| d [| y [| ? ?]]]]; try discriminate.
    intros H. injection H as <-.
    pose proof (Forall_inv Hall) as Hm.
    pose proof (Forall_inv (Forall_inv_tail Hall)) as Hd.
    pose proof (Forall_inv (Forall_inv_tail (Forall_inv_tail Hall))) as Hy.
    exists m, d, y. repeat split; try assumption.
    symmetry. exact Hjoin.
Qed.

Lemma dateStr_converts_witness :
  dateStr "1/5/2024" = Some "2024-01-05"
  /\ exists m d y,
       no_slash m = true /\ no_slash d = true /\ no_slash y = true
       /\ "12/31/2023" = m ++ "/" ++ d ++ "/" ++ y
       /\ "2023-12-31" = y ++ "-" ++ padStart2 m ++ "-" ++ padStart2 d.
Proof.
  split.
  - apply (proj1 (dateStr_converts "1/5/2024") "1" "5" "2024"); reflexivity.
  - apply (proj2 (dateStr_converts "12/31/2023") "2023-12-31"). reflexivity.
Defined.

End ImportDates.
